(** * A 16-bit general-purpose-register CPU and its two-pass assembler

    Shallow embedding of [src/src/gpr_cpu.cpp] (bus, decoder, executor) and
    of [src/assembler.cpp] (string helpers, encoders, the two passes),
    followed by the properties established about them.

    Conventions.
    - A [uint16_t] is a [Z] in [0, 65536); every C++ assignment that can
      leave that range is followed by an explicit [u16] wrap.
    - The register file [R[8]] is a [list Z]; it is only ever indexed by a
      3-bit field, so an index is always below 8.
    - Memory behind the bus is a finite map from addresses to words; a
      cell that was never written reads as 0 (the array is value
      initialised by [new uint16_t[MEMORY_SIZE]()]).
    - The assembler receives a raw pointer; its effect on memory is the
      ordered list of the stores [mem[i] = v] it performs.
    - [std::stoul] and [std::stoi] throw on malformed input and nothing in
      the assembler catches; that outcome is modelled explicitly. *)

From Stdlib Require Import ZArith Lia Ascii String.
From stdpp Require Import gmap strings list.

Open Scope Z_scope.

(* ===================================================================== *)
(** ** Machine words *)
(* ===================================================================== *)

Definition u16 (x : Z) : Z := x mod 65536.

Definition is_u16 (x : Z) : Prop := 0 <= x < 65536.

(* ===================================================================== *)
(** ** The header [gpr_cpu.h] *)
(* ===================================================================== *)

(** Modelled from the spec: [gpr_cpu.h] is not among the sources, so the
    constants it declares are taken as parameters.  [MEMORY_SIZE] is the
    fixed capacity of the memory array.  The flags register holds "three
    independent bits" (Zero, Carry, Negative): each mask is a single bit
    and the three bit positions are pairwise different. *)
Record Header : Type := {
  MEMORY_SIZE : Z;
  zero_bit : Z;
  carry_bit : Z;
  negative_bit : Z;
  flag_bits_nonneg : 0 <= zero_bit /\ 0 <= carry_bit /\ 0 <= negative_bit;
  flag_bits_distinct :
    zero_bit <> carry_bit /\ zero_bit <> negative_bit /\ carry_bit <> negative_bit
}.

Definition FLAG_ZERO (h : Header) : Z := Z.shiftl 1 (zero_bit h).
Definition FLAG_CARRY (h : Header) : Z := Z.shiftl 1 (carry_bit h).
Definition FLAG_NEGATIVE (h : Header) : Z := Z.shiftl 1 (negative_bit h).

(** Modelled from the spec: [enum class Opcode] of [gpr_cpu.h], numbered
    as the mnemonic table of the assembler's [getOpcode] numbers it. *)
Inductive Opcode : Type :=
| HALT | MOVI | MOV | LOAD | STORE | ADD | SUB | AND | OR | XOR
| NOT | SHL | SHR | JMP | JZ | NOP.

(** [static_cast<Opcode>(op)] for a 4-bit [op]. *)
Definition toOpcode (op : Z) : Opcode :=
  match op with
  | 0 => HALT | 1 => MOVI | 2 => MOV | 3 => LOAD | 4 => STORE
  | 5 => ADD | 6 => SUB | 7 => AND | 8 => OR | 9 => XOR
  | 10 => NOT | 11 => SHL | 12 => SHR | 13 => JMP | 14 => JZ
  | _ => NOP
  end.

(* ===================================================================== *)
(** ** Bus *)
(* ===================================================================== *)

Module Bus.

(** [Bus::read]. *)
Definition read (h : Header) (memory : gmap Z Z) (address : Z) : Z :=
  if address <? MEMORY_SIZE h then default 0 (memory !! address) else 0.

(** [Bus::write]. *)
Definition write (h : Header) (memory : gmap Z Z) (address value : Z)
  : gmap Z Z :=
  if address <? MEMORY_SIZE h then <[address := value]> memory else memory.

End Bus.

(* ===================================================================== *)
(** ** Decode helpers *)
(* ===================================================================== *)

Definition decodeOpcode (inst : Z) : Z := Z.land (Z.shiftr inst 12) 15.
Definition decodeRd (inst : Z) : Z := Z.land (Z.shiftr inst 9) 7.
Definition decodeRs (inst : Z) : Z := Z.land (Z.shiftr inst 6) 7.
Definition decodeImm9 (inst : Z) : Z := Z.land inst 511.

(* ===================================================================== *)
(** ** CPU state *)
(* ===================================================================== *)

Record CPUState : Type := mkCPUState {
  R : list Z;
  PC : Z;
  FLAGS : Z;
  halted : bool
}.

(** The CPU together with the memory of the bus it is attached to. *)
Record GPRCPU : Type := mkGPRCPU {
  state : CPUState;
  memory : gmap Z Z
}.

Definition getR (s : CPUState) (i : Z) : Z := R s !!! Z.to_nat i.

Definition setR (s : CPUState) (i v : Z) : CPUState :=
  mkCPUState (<[Z.to_nat i := v]> (R s)) (PC s) (FLAGS s) (halted s).

Definition setPC (s : CPUState) (v : Z) : CPUState :=
  mkCPUState (R s) v (FLAGS s) (halted s).

Definition setFLAGS (s : CPUState) (v : Z) : CPUState :=
  mkCPUState (R s) (PC s) v (halted s).

Definition setHalted (s : CPUState) (b : bool) : CPUState :=
  mkCPUState (R s) (PC s) (FLAGS s) b.

(** [GPRCPU::reset]. *)
Definition reset : CPUState := mkCPUState (replicate 8 0) 0 0 false.

Section Engine.

Context (h : Header).

(** [FLAGS &= ~(FLAG_ZERO | FLAG_CARRY | FLAG_NEGATIVE)]. *)
Definition clearFlags (f : Z) : Z :=
  Z.land f (Z.lnot (Z.lor (Z.lor (FLAG_ZERO h) (FLAG_CARRY h)) (FLAG_NEGATIVE h))).

(** [if (cond) FLAGS |= mask]. *)
Definition orIf (cond : bool) (mask f : Z) : Z :=
  if cond then Z.lor f mask else f.

Definition nonzero (x : Z) : bool := negb (x =? 0).

(** [GPRCPU::setResultFlags]. *)
Definition setResultFlags (result : Z) (s : CPUState) : CPUState :=
  let f := clearFlags (FLAGS s) in
  let f := orIf (result =? 0) (FLAG_ZERO h) f in
  let f := orIf (nonzero (Z.land result 32768)) (FLAG_NEGATIVE h) f in
  setFLAGS s f.

(** [GPRCPU::setAddFlags]. *)
Definition setAddFlags (a b result : Z) (s : CPUState) : CPUState :=
  let f := clearFlags (FLAGS s) in
  let f := orIf (result =? 0) (FLAG_ZERO h) f in
  let f := orIf (nonzero (Z.land result 32768)) (FLAG_NEGATIVE h) f in
  let f := orIf (65535 <? a + b) (FLAG_CARRY h) f in
  setFLAGS s f.

(** [GPRCPU::setSubFlags]. *)
Definition setSubFlags (a b result : Z) (s : CPUState) : CPUState :=
  let f := clearFlags (FLAGS s) in
  let f := orIf (result =? 0) (FLAG_ZERO h) f in
  let f := orIf (nonzero (Z.land result 32768)) (FLAG_NEGATIVE h) f in
  let f := orIf (b <=? a) (FLAG_CARRY h) f in
  setFLAGS s f.

(** [GPRCPU::execute]; the trace output is not modelled. *)
Definition execute (instruction : Z) (c : GPRCPU) : GPRCPU :=
  let op := decodeOpcode instruction in
  let rd := decodeRd instruction in
  let rs := decodeRs instruction in
  let imm9 := decodeImm9 instruction in
  let s := state c in
  let mem := memory c in
  match toOpcode op with
  | HALT => mkGPRCPU (setHalted s true) mem
  | MOVI =>
      let s := setR s rd imm9 in
      mkGPRCPU (setResultFlags (getR s rd) s) mem
  | MOV =>
      let s := setR s rd (getR s rs) in
      mkGPRCPU (setResultFlags (getR s rd) s) mem
  | LOAD =>
      let addr := getR s rs in
      let s := setR s rd (Bus.read h mem addr) in
      mkGPRCPU (setResultFlags (getR s rd) s) mem
  | STORE =>
      let addr := getR s rs in
      mkGPRCPU s (Bus.write h mem addr (getR s rd))
  | ADD =>
      let a := getR s rd in
      let b := getR s rs in
      let result := u16 (a + b) in
      let s := setR s rd result in
      mkGPRCPU (setAddFlags a b result s) mem
  | SUB =>
      let a := getR s rd in
      let b := getR s rs in
      let result := u16 (a - b) in
      let s := setR s rd result in
      mkGPRCPU (setSubFlags a b result s) mem
  | AND =>
      let s := setR s rd (Z.land (getR s rd) (getR s rs)) in
      mkGPRCPU (setResultFlags (getR s rd) s) mem
  | OR =>
      let s := setR s rd (Z.lor (getR s rd) (getR s rs)) in
      mkGPRCPU (setResultFlags (getR s rd) s) mem
  | XOR =>
      let s := setR s rd (Z.lxor (getR s rd) (getR s rs)) in
      mkGPRCPU (setResultFlags (getR s rd) s) mem
  | NOT =>
      let s := setR s rd (u16 (Z.lnot (getR s rs))) in
      mkGPRCPU (setResultFlags (getR s rd) s) mem
  | SHL =>
      let val := getR s rd in
      let s := setR s rd (u16 (Z.shiftl val 1)) in
      let f := clearFlags (FLAGS s) in
      let f := orIf (getR s rd =? 0) (FLAG_ZERO h) f in
      let f := orIf (nonzero (Z.land (getR s rd) 32768)) (FLAG_NEGATIVE h) f in
      let f := orIf (nonzero (Z.land val 32768)) (FLAG_CARRY h) f in
      mkGPRCPU (setFLAGS s f) mem
  | SHR =>
      let val := getR s rd in
      let s := setR s rd (Z.shiftr val 1) in
      let f := clearFlags (FLAGS s) in
      let f := orIf (getR s rd =? 0) (FLAG_ZERO h) f in
      let f := orIf (nonzero (Z.land (getR s rd) 32768)) (FLAG_NEGATIVE h) f in
      let f := orIf (nonzero (Z.land val 1)) (FLAG_CARRY h) f in
      mkGPRCPU (setFLAGS s f) mem
  | JMP => mkGPRCPU (setPC s (getR s rs)) mem
  | JZ =>
      if nonzero (Z.land (FLAGS s) (FLAG_ZERO h))
      then mkGPRCPU (setPC s (getR s rs)) mem
      else c
  | NOP => c
  end.

(** [GPRCPU::step]: the returned boolean and the machine afterwards. *)
Definition step (c : GPRCPU) : bool * GPRCPU :=
  if halted (state c) then (false, c)
  else
    let instruction := Bus.read h (memory c) (PC (state c)) in
    let c1 := mkGPRCPU (setPC (state c) (u16 (PC (state c) + 1))) (memory c) in
    let c2 := execute instruction c1 in
    (negb (halted (state c2)), c2).

(** [n] successive calls of [step], keeping the last machine. *)
Fixpoint steps (n : nat) (c : GPRCPU) : GPRCPU :=
  match n with
  | O => c
  | S k => steps k (snd (step c))
  end.

(** [GPRCPU::run]: the loop [while (step()) ++cycles] does not terminate
    on a program that never halts, so it is bounded by [fuel]; [None]
    means the bound was reached. *)
Fixpoint run (fuel : nat) (cycles : Z) (c : GPRCPU) : option (Z * GPRCPU) :=
  match fuel with
  | O => None
  | S k =>
      let '(continue, c') := step c in
      if continue then run k (cycles + 1) c' else Some (cycles, c')
  end.

End Engine.

(* ===================================================================== *)
(** ** Assembler: character and string helpers *)
(* ===================================================================== *)

Module Asm.

Definition code (c : ascii) : Z := Z.of_N (N_of_ascii c).

(** [toUpperChar]. *)
Definition toUpperChar (c : ascii) : ascii :=
  if (97 <=? code c) && (code c <=? 122)
  then ascii_of_N (Z.to_N (code c - 32))
  else c.

(** [toUpper]. *)
Fixpoint toUpper (s : string) : string :=
  match s with
  | EmptyString => EmptyString
  | String c s' => String (toUpperChar c) (toUpper s')
  end.

(** Membership in the set [" \t\r\n"] used by [trim] and [tokenize]. *)
Definition isBlank (c : ascii) : bool :=
  (code c =? 32) || (code c =? 9) || (code c =? 13) || (code c =? 10).

(** [s.find_first_not_of(" \t\r\n")], counting positions from [i]. *)
Fixpoint find_first_not_of (s : string) (i : nat) : option nat :=
  match s with
  | EmptyString => None
  | String c s' => if isBlank c then find_first_not_of s' (S i) else Some i
  end.

(** [s.find_last_not_of(" \t\r\n")], counting positions from [i]. *)
Fixpoint find_last_not_of (s : string) (i : nat) : option nat :=
  match s with
  | EmptyString => None
  | String c s' =>
      match find_last_not_of s' (S i) with
      | Some j => Some j
      | None => if isBlank c then None else Some i
      end
  end.

(** [s.find(ch)], counting positions from [i]. *)
Fixpoint find (ch : ascii) (s : string) (i : nat) : option nat :=
  match s with
  | EmptyString => None
  | String c s' => if Ascii.eqb c ch then Some i else find ch s' (S i)
  end.

(** [trim]. *)
Definition trim (s : string) : string :=
  match find_first_not_of s 0 with
  | None => EmptyString
  | Some a =>
      match find_last_not_of s 0 with
      | None => EmptyString
      | Some b => substring a (b - a + 1) s
      end
  end.

(** [stripComment]. *)
Definition stripComment (line : string) : string :=
  match find ";"%char line 0 with
  | Some p => trim (substring 0 p line)
  | None => trim line
  end.

(** The separators of [tokenize]: blanks and the comma. *)
Definition isSep (c : ascii) : bool := isBlank c || (code c =? 44).

Definition empty (s : string) : bool :=
  match s with EmptyString => true | _ => false end.

(** The loop of [tokenize]; [cur] is the token being accumulated.  The
    extra iteration at [i = line.size()] sees a blank, which flushes the
    last token. *)
Fixpoint tokenize_from (line cur : string) : list string :=
  match line with
  | EmptyString => if empty cur then [] else [cur]
  | String c rest =>
      if isSep c
      then (if empty cur then tokenize_from rest EmptyString
            else cur :: tokenize_from rest EmptyString)
      else tokenize_from rest (cur +:+ String c EmptyString)
  end.

(** [tokenize]. *)
Definition tokenize (line : string) : list string :=
  tokenize_from line EmptyString.

(** The successive results of [std::getline] on the source: a line ends
    at each newline, and a last unterminated line is delivered only
    when it holds at least one character. *)
Fixpoint getlines_from (source cur : string) : list string :=
  match source with
  | EmptyString => if empty cur then [] else [cur]
  | String c rest =>
      if code c =? 10 then cur :: getlines_from rest EmptyString
      else getlines_from rest (cur +:+ String c EmptyString)
  end.

Definition getlines (source : string) : list string :=
  getlines_from source EmptyString.

(** [s.back()] on a non-empty string. *)
Fixpoint back (s : string) : option ascii :=
  match s with
  | EmptyString => None
  | String c EmptyString => Some c
  | String _ s' => back s'
  end.

(** [getOpcode]. *)
Definition getOpcode (mnem : string) : Z :=
  if String.eqb mnem "HALT" then 0
  else if String.eqb mnem "MOVI" then 1
  else if String.eqb mnem "MOV" then 2
  else if String.eqb mnem "LOAD" then 3
  else if String.eqb mnem "STORE" then 4
  else if String.eqb mnem "ADD" then 5
  else if String.eqb mnem "SUB" then 6
  else if String.eqb mnem "AND" then 7
  else if String.eqb mnem "OR" then 8
  else if String.eqb mnem "XOR" then 9
  else if String.eqb mnem "NOT" then 10
  else if String.eqb mnem "SHL" then 11
  else if String.eqb mnem "SHR" then 12
  else if String.eqb mnem "JMP" then 13
  else if String.eqb mnem "JZ" then 14
  else if String.eqb mnem "NOP" then 15
  else -1.

(* ------------------------------------------------------------------- *)
(** *** Number parsing ([std::stoul], [std::stoi]) *)
(* ------------------------------------------------------------------- *)

(** [isspace] in the C locale. *)
Definition isspace (c : ascii) : bool :=
  (code c =? 32) || ((9 <=? code c) && (code c <=? 13)).

Fixpoint skipSpace (s : string) : string :=
  match s with
  | String c s' => if isspace c then skipSpace s' else s
  | EmptyString => EmptyString
  end.

(** Value of a character as a digit, letters counting from 10. *)
Definition digitVal (c : ascii) : option Z :=
  let n := code c in
  if (48 <=? n) && (n <=? 57) then Some (n - 48)
  else if (97 <=? n) && (n <=? 122) then Some (n - 87)
  else if (65 <=? n) && (n <=? 90) then Some (n - 55)
  else None.

(** Longest prefix of digits of [base]: its value and how many digits
    were consumed. *)
Fixpoint digits (base : Z) (s : string) (acc : Z) (count : nat) : Z * nat :=
  match s with
  | EmptyString => (acc, count)
  | String c s' =>
      match digitVal c with
      | Some d =>
          if d <? base then digits base s' (acc * base + d) (S count)
          else (acc, count)
      | None => (acc, count)
      end
  end.

(** Optional sign in front of the digits: [true] for a minus. *)
Definition sign (s : string) : bool * string :=
  match s with
  | String c s' =>
      if code c =? 45 then (true, s')
      else if code c =? 43 then (false, s')
      else (false, s)
  | EmptyString => (false, s)
  end.

Definition isHexDigit (c : ascii) : bool :=
  match digitVal c with Some d => d <? 16 | None => false end.

(** The subject sequence of [strtoul(s, &end, 0)]: blanks, sign, then a
    base chosen by the prefix ([0x]/[0X] followed by a hexadecimal
    digit: 16; a leading [0]: 8; otherwise 10).  Returns the sign, the
    magnitude and the number of digits read. *)
Definition scanAuto (s : string) : bool * (Z * nat) :=
  let '(neg, s) := sign (skipSpace s) in
  match s with
  | String c0 (String c1 (String c2 s')) =>
      if (code c0 =? 48) && ((code c1 =? 120) || (code c1 =? 88)) && isHexDigit c2
      then (neg, digits 16 (String c2 s') 0 0)
      else if code c0 =? 48 then (neg, digits 8 s 0 0)
      else (neg, digits 10 s 0 0)
  | String c0 _ =>
      if code c0 =? 48 then (neg, digits 8 s 0 0)
      else (neg, digits 10 s 0 0)
  | EmptyString => (neg, (0, O))
  end.

(** [ULONG_MAX] where [unsigned long] has 64 bits. *)
Definition ULONG_MAX : Z := 18446744073709551615.

(** [std::stoul(s, &idx, 0)]: [None] when it throws
    ([std::invalid_argument] without digits, [std::out_of_range] on
    overflow); a minus sign negates in [unsigned long]. *)
Definition stoul (s : string) : option Z :=
  match scanAuto s with
  | (_, (_, O)) => None
  | (neg, (v, _)) =>
      if ULONG_MAX <? v then None
      else Some (if neg then (- v) mod (ULONG_MAX + 1) else v)
  end.

(** [parseNumber]; [None] when [std::stoul] throws. *)
Definition parseNumber (s : string) : option Z :=
  match stoul s with
  | Some v => Some (Z.land v 65535)
  | None => None
  end.

(** [std::stoi(s, nullptr, 10)] with a 32-bit [int]: [None] when it
    throws. *)
Definition stoi (s : string) : option Z :=
  let '(neg, s) := sign (skipSpace s) in
  match digits 10 s 0 0 with
  | (_, O) => None
  | (v, _) =>
      let n := if neg then - v else v in
      if (n <? -2147483648) || (2147483647 <? n) then None else Some n
  end.

(** Outcome of [parseReg]: the register written through [r] when it
    returns true, false, or the exception of [std::stoi]. *)
Inductive RegParse : Type :=
| IsReg (r : Z)
| NotReg
| RegThrows.

Definition front (s : string) : option ascii :=
  match s with String c _ => Some c | EmptyString => None end.

Definition frontIs (s : string) (n : Z) : bool :=
  match front s with Some c => code c =? n | None => false end.

Definition backIs (s : string) (n : Z) : bool :=
  match back s with Some c => code c =? n | None => false end.

(** The loop of [parseReg] that peels matching outer parentheses; each
    round shortens [t] by two, so [String.length t] rounds suffice. *)
Fixpoint peel (fuel : nat) (t : string) : string :=
  match fuel with
  | O => t
  | S k =>
      if (2 <=? String.length t)%nat && frontIs t 40 && backIs t 41
      then peel k (substring 1 (String.length t - 2) t)
      else t
  end.

(** [parseReg]. *)
Definition parseReg (s : string) : RegParse :=
  let t := peel (String.length s) s in
  if (String.length t <? 2)%nat || negb (frontIs t 82 || frontIs t 114)
  then NotReg
  else
    match stoi (substring 1 (String.length t - 1) t) with
    | None => RegThrows
    | Some n => if (n <? 0) || (7 <? n) then NotReg else IsReg n
    end.

(* ------------------------------------------------------------------- *)
(** *** Encoders *)
(* ------------------------------------------------------------------- *)

(** [encMOVI]. *)
Definition encMOVI (rd imm9 : Z) : Z :=
  u16 (Z.lor (Z.lor (Z.shiftl 1 12) (Z.shiftl (Z.land rd 7) 9))
             (Z.land imm9 511)).

(** [encRR]. *)
Definition encRR (op rd rs : Z) : Z :=
  u16 (Z.lor (Z.lor (Z.shiftl (Z.land op 15) 12) (Z.shiftl (Z.land rd 7) 9))
             (Z.shiftl (Z.land rs 7) 6)).

(* ------------------------------------------------------------------- *)
(** *** The two passes *)
(* ------------------------------------------------------------------- *)

(** Modelled from the spec: [struct AssembleResult] of [assembler.h],
    which is not among the sources; its fields are the ones [assemble]
    fills in ([{ok, errorMessage, lineNumber}] in the spec). *)
Record AssembleResult : Type := mkResult {
  ok : bool;
  error : string;
  lineNum : nat
}.

Definition failure (msg : string) (n : nat) : AssembleResult :=
  mkResult false msg n.

(** The message of the jump-target check, called [JumpTargetTooLarge]
    in the error taxonomy. *)
Definition JumpTargetTooLarge : string :=
  "Jump target > 511 (MOVI 9-bit limit); use register".

Definition ProgramTooLarge : string := "Program too large".

(** What processing one source line leads to: the loop goes on with a
    new state, [assemble] returns an error result, or an exception of
    [std::stoul]/[std::stoi] leaves [assemble]. *)
Inductive Step (S : Type) : Type :=
| Go (s : S)
| Fail (res : AssembleResult)
| Throw.
Arguments Go {S} s.
Arguments Fail {S} res.
Arguments Throw {S}.

(** The part of a loop body that both passes share: comment stripping,
    the label test and tokenisation. *)
Inductive Line : Type :=
| Skip
| Label (name : string)
| Command (tok : list string).

Definition readLine (line : string) : Line :=
  let rest := stripComment line in
  if empty rest then Skip
  else if backIs rest 58
  then Label (trim (substring 0 (String.length rest - 1) rest))
  else
    match tokenize rest with
    | [] => Skip
    | tok => Command tok
    end.

(** Body of the first loop for a tokenised line. *)
Definition pass1_command (n : nat) (tok : list string) (pc : Z) : Step Z :=
  let cmd := toUpper (hd EmptyString tok) in
  if String.eqb cmd ".ORG" then
    match tok with
    | _ :: t1 :: _ =>
        match parseNumber t1 with
        | Some v => Go v
        | None => Throw
        end
    | _ => Fail (failure ".ORG requires address" n)
    end
  else if String.eqb cmd ".WORD" then
    match tok with
    | [_] => Fail (failure ".WORD requires value" n)
    | [_; _] => Go (u16 (pc + 1))
    | _ => Go pc
    end
  else if 0 <=? getOpcode cmd then Go (u16 (pc + 1))
  else Fail (failure ("Unknown: " +:+ cmd) n).

(** Body of the first loop: line [n] read with counter [pc] and the
    labels collected so far. *)
Definition pass1_line (n : nat) (line : string) (st : Z * gmap string Z)
  : Step (Z * gmap string Z) :=
  let '(pc, labels) := st in
  match readLine line with
  | Skip => Go st
  | Label name =>
      if empty name then Go st
      else Go (pc, <[toUpper name := pc]> labels)
  | Command tok =>
      match pass1_command n tok pc with
      | Go pc' => Go (pc', labels)
      | Fail res => Fail res
      | Throw => Throw
      end
  end.

(** The first loop; [n] is [lineNum] before the line is read. *)
Fixpoint pass1 (lines : list string) (n : nat) (st : Z * gmap string Z)
  : Step (Z * gmap string Z) :=
  match lines with
  | [] => Go st
  | line :: rest =>
      match pass1_line (S n) line st with
      | Go st' => pass1 rest (S n) st'
      | Fail res => Fail res
      | Throw => Throw
      end
  end.

(** [labels.count(toUpper(arg)) ? labels[toUpper(arg)] : parseNumber(arg)]. *)
Definition resolve (labels : gmap string Z) (arg : string) : option Z :=
  match labels !! toUpper arg with
  | Some a => Some a
  | None => parseNumber arg
  end.

(** State of the second loop: the emission cursor and the stores made
    so far, oldest first. *)
Record Emit : Type := mkEmit {
  cursor : Z;
  stores : list (Z * Z)
}.

(** [mem[pc++] = inst] at the end of the loop body. *)
Definition emit (pc inst : Z) : Step Emit :=
  Go (mkEmit (u16 (pc + 1)) [(pc, inst)]).

(** Body of the second loop for a tokenised line: the new cursor and
    the stores of this line. *)
Definition pass2_command (labels : gmap string Z) (memSize : Z) (n : nat)
    (tok : list string) (pc : Z) : Step Emit :=
  let cmd := toUpper (hd EmptyString tok) in
  if String.eqb cmd ".ORG" then
    match tok with
    | _ :: t1 :: _ =>
        match parseNumber t1 with
        | Some v => Go (mkEmit v [])
        | None => Throw
        end
    | _ => Go (mkEmit pc [])
    end
  else if String.eqb cmd ".WORD" then
    match tok with
    | _ :: t1 :: more =>
        match parseNumber t1 with
        | None => Throw
        | Some val =>
            match more with
            | t2 :: _ =>
                match parseNumber t1, parseNumber t2 with
                | Some addr, Some val =>
                    Go (mkEmit pc (if addr <? memSize then [(addr, val)] else []))
                | _, _ => Throw
                end
            | [] =>
                Go (mkEmit (u16 (pc + 1))
                           (if pc <? memSize then [(pc, val)] else []))
            end
        end
    | _ => Go (mkEmit pc [])
    end
  else
    let op := getOpcode cmd in
    if op <? 0 then Fail (failure ("Unknown: " +:+ cmd) n)
    else if memSize <=? pc then Fail (failure ProgramTooLarge n)
    else if op =? 0 then emit pc 0
    else if op =? 1 then
      match tok with
      | _ :: t1 :: immStr :: _ =>
          match parseReg t1 with
          | RegThrows => Throw
          | NotReg => Fail (failure "Invalid register" n)
          | IsReg rd =>
              match resolve labels immStr with
              | None => Throw
              | Some imm => emit pc (encMOVI rd (Z.land imm 511))
              end
          end
      | _ => Fail (failure "MOVI Rd, imm" n)
      end
    else if (op =? 13) || (op =? 14) then
      match tok with
      | _ :: arg :: _ =>
          match parseReg arg with
          | RegThrows => Throw
          | IsReg rs => emit pc (encRR op 0 rs)
          | NotReg =>
              match resolve labels arg with
              | None => Throw
              | Some target =>
                  if 511 <? target then Fail (failure JumpTargetTooLarge n)
                  else
                    let pc1 := u16 (pc + 1) in
                    Go (mkEmit (u16 (pc1 + 1))
                               [(pc, encMOVI 7 target); (pc1, encRR op 0 7)])
              end
          end
      | _ => Fail (failure "JMP/JZ needs target" n)
      end
    else if op =? 15 then emit pc 61440
    else
      match tok with
      | _ :: t1 :: more =>
          match parseReg t1 with
          | RegThrows => Throw
          | NotReg => Fail (failure "Invalid Rd" n)
          | IsReg rd =>
              if (op =? 10) || (op =? 11) || (op =? 12)
              then emit pc (encRR op rd rd)
              else
                match more with
                | arg :: _ =>
                    match parseReg arg with
                    | RegThrows => Throw
                    | IsReg rs => emit pc (encRR op rd rs)
                    | NotReg =>
                        match resolve labels arg with
                        | None => Throw
                        | Some val => emit pc (encRR op rd (Z.land val 7))
                        end
                    end
                | [] => emit pc (encRR op rd 0)
                end
          end
      | _ => Fail (failure "Needs operands" n)
      end.

(** Body of the second loop for line [n], read with cursor [pc]. *)
Definition pass2_line (labels : gmap string Z) (memSize : Z) (n : nat)
    (line : string) (pc : Z) : Step Emit :=
  match readLine line with
  | Skip | Label _ => Go (mkEmit pc [])
  | Command tok => pass2_command labels memSize n tok pc
  end.

(** How a loop over the source ends: it runs out of lines, [assemble]
    returns an error result, or an exception escapes. *)
Inductive Exit : Type :=
| Done
| Error (res : AssembleResult)
| Raised.

(** The second loop; [n] is [lineNum] before the line is read and [st]
    the cursor with the stores made so far.  Returns the state in which
    the loop is left and how. *)
Fixpoint pass2 (labels : gmap string Z) (memSize : Z) (lines : list string)
    (n : nat) (st : Emit) : Emit * Exit :=
  match lines with
  | [] => (st, Done)
  | line :: rest =>
      match pass2_line labels memSize (S n) line (cursor st) with
      | Go e => pass2 labels memSize rest (S n)
                      (mkEmit (cursor e) (stores st ++ stores e))
      | Fail res => (st, Error res)
      | Throw => (st, Raised)
      end
  end.

(** What [assemble] leaves behind: the value it returns or the fact
    that an exception escaped, with the stores made until then. *)
Inductive Outcome : Type :=
| Returned (res : AssembleResult) (written : list (Z * Z))
| Thrown (written : list (Z * Z)).

Definition outcome (r : Emit * Exit) : Outcome :=
  match r with
  | (st, Done) => Returned (mkResult true EmptyString 0) (stores st)
  | (st, Error res) => Returned res (stores st)
  | (st, Raised) => Thrown (stores st)
  end.

(** [assemble]. *)
Definition assemble (source : string) (memSize : Z) : Outcome :=
  let lines := getlines source in
  match pass1 lines 0 (0, ∅) with
  | Fail res => Returned res []
  | Throw => Thrown []
  | Go (_, labels) => outcome (pass2 labels memSize lines 0 (mkEmit 0 []))
  end.

(** The label table with which the second loop runs, when the first
    loop completes. *)
Definition labelsOf (source : string) : option (gmap string Z) :=
  match pass1 (getlines source) 0 (0, ∅) with
  | Go (_, labels) => Some labels
  | _ => None
  end.

(** The emission cursor with which the second loop reads line [k + 1]
    of [lines], when it gets that far. *)
Definition cursorAt (labels : gmap string Z) (memSize : Z)
    (lines : list string) (k : nat) : option Z :=
  match pass2 labels memSize (take k lines) 0 (mkEmit 0 []) with
  | (st, Done) => Some (cursor st)
  | _ => None
  end.

(** The memory after the stores [w] were made, oldest first, on [mem]. *)
Definition poke (mem : gmap Z Z) (w : list (Z * Z)) : gmap Z Z :=
  foldl (fun m '(a, v) => <[a := v]> m) mem w.

End Asm.

(* ===================================================================== *)
(** ** Auxiliary definitions for the statements *)
(* ===================================================================== *)

Import Asm.

(** The test [FLAGS & mask] as [JZ] and the trace printer perform it. *)
Definition flagSet (f mask : Z) : bool := nonzero (Z.land f mask).

(** The register file has its eight cells. *)
Definition wfState (s : CPUState) : Prop := length (R s) = 8%nat.

(** A header instance: 64K words of memory, flags in bits 0, 1 and 2. *)
Definition header64k : Header :=
  {| MEMORY_SIZE := 65536;
     zero_bit := 0; carry_bit := 1; negative_bit := 2;
     flag_bits_nonneg := ltac:(lia);
     flag_bits_distinct := ltac:(lia) |}.

(** [c] with its program counter replaced: the machine between the fetch
    and the execution of a step. *)
Definition fetched (c : GPRCPU) : GPRCPU :=
  mkGPRCPU (setPC (state c) (u16 (PC (state c) + 1))) (memory c).

Definition nl : string := String (ascii_of_nat 10) EmptyString.

(** Source lines joined the way a text file holds them. *)
Fixpoint unlines (ls : list string) : string :=
  match ls with
  | [] => EmptyString
  | l :: rest => l +:+ nl +:+ unlines rest
  end.

(** The forward-reference program of the specification. *)
Definition forward_label_program : string :=
  unlines ["JZ DONE"; "MOVI R0, 1"; "DONE:"; "HALT"].

(** A jump to address 600 placed where the buffer is already full. *)
Definition full_then_jump_program : string := unlines ["NOP"; "JMP 600"].

(** A data word whose operand is a label. *)
Definition word_label_program : string := unlines ["DATA:"; ".WORD DATA"].

(** A data word whose operand is a label that also reads as a number. *)
Definition word_numeric_label_program : string :=
  unlines ["NOP"; "10:"; ".WORD 10"].

(** A jump to a literal address as the last instruction that fits. *)
Definition jump_at_end_program : string := unlines ["NOP"; "JMP 0"].

(** A poke between two instructions. *)
Definition poke_program : string :=
  unlines ["MOVI R0, 5"; ".WORD 0x50 0xFFFF"; "NOP"].

(** A machine freshly reset, with the Zero flag raised, on the memory
    that the stores [w] leave behind. *)
Definition bootZ (h : Header) (w : list (Z * Z)) : GPRCPU :=
  mkGPRCPU (setFLAGS reset (FLAG_ZERO h)) (poke ∅ w).

(** Every register and the program counter hold 16-bit values. *)
Definition wordState (s : CPUState) : Prop :=
  wfState s /\ Forall is_u16 (R s) /\ is_u16 (PC s).

(** Every memory cell holds a 16-bit value. *)
Definition wordMemory (mem : gmap Z Z) : Prop :=
  forall a v, mem !! a = Some v -> is_u16 v.

(** Every character of [s] satisfies [p]. *)
Fixpoint allChars (p : ascii -> bool) (s : string) : bool :=
  match s with
  | EmptyString => true
  | String c s' => p c && allChars p s'
  end.

(** The characters of [s] that satisfy [p], in order. *)
Fixpoint keepChars (p : ascii -> bool) (s : string) : string :=
  match s with
  | EmptyString => EmptyString
  | String c s' => if p c then String c (keepChars p s') else keepChars p s'
  end.

(** The strings of [ls] one after the other. *)
Fixpoint joined (ls : list string) : string :=
  match ls with
  | [] => EmptyString
  | l :: rest => l +:+ joined rest
  end.

Definition notSep (c : ascii) : bool := negb (isSep c).
Definition notNewline (c : ascii) : bool := negb (code c =? 10).
Definition notSemicolon (c : ascii) : bool := negb (Ascii.eqb c ";"%char).

(** The line is a JMP or JZ whose operand [parseReg] does not accept as
    a register: the lines for which the second loop stores two words. *)
Definition expands (line : string) : bool :=
  match readLine line with
  | Command (t0 :: arg :: _) =>
      let op := getOpcode (toUpper t0) in
      ((op =? 13) || (op =? 14))
      && match parseReg arg with NotReg => true | _ => false end
  | _ => false
  end.

(** A store of the second loop that is where it should be: inside the
    buffer, holding a 16-bit value. *)
Definition storeOk (memSize : Z) (s : Z * Z) : Prop :=
  0 <= fst s < memSize /\ is_u16 (snd s).

(** The line declares the label whose upper-case name is [key]. *)
Definition declares (key : string) (line : string) : bool :=
  match readLine line with
  | Label name => negb (empty name) && String.eqb (toUpper name) key
  | _ => false
  end.

(** A program with a label and no jump. *)
Definition label_program : string :=
  unlines ["MOVI R0, 5"; "LOOP:"; "NOP"; "HALT"].

(** A jump to a label whose name starts with the letter R. *)
Definition r_label_jump_program : string :=
  unlines [".ORG 600"; "RESET:"; "JMP RESET"].

(** A poke at an address the buffer does not have, then an instruction. *)
Definition poke_outside_program : string :=
  unlines [".WORD 0x50 0xFFFF"; "NOP"].

(** A data word with the cursor beyond the buffer. *)
Definition word_outside_program : string := unlines [".ORG 20"; ".WORD 7"].

(** A data word in the last cell of a 64K buffer, then an instruction. *)
Definition word_wrap_program : string :=
  unlines [".ORG 65535"; ".WORD 7"; "NOP"].

(* ===================================================================== *)
(** ** Bit-level facts *)
(* ===================================================================== *)

Lemma land_pow2 (f k : Z) :
  0 <= k -> Z.land f (2 ^ k) = if Z.testbit f k then 2 ^ k else 0.
Proof.
  intros Hk. apply Z.bits_inj'. intros n Hn.
  rewrite Z.land_spec, Z.pow2_bits_eqb by lia.
  destruct (Z.eqb_spec k n) as [->|Hne].
  - destruct (Z.testbit f n); [rewrite Z.pow2_bits_true by lia|rewrite Z.bits_0]; reflexivity.
  - rewrite andb_false_r.
    destruct (Z.testbit f k); [rewrite Z.pow2_bits_false by lia|rewrite Z.bits_0]; reflexivity.
Qed.

Lemma flagSet_testbit (f k : Z) :
  0 <= k -> flagSet f (Z.shiftl 1 k) = Z.testbit f k.
Proof.
  intros Hk. unfold flagSet, nonzero.
  rewrite Z.shiftl_1_l, land_pow2 by lia.
  destruct (Z.testbit f k); [|reflexivity].
  assert (0 < 2 ^ k) by (apply Z.pow_pos_nonneg; lia).
  destruct (Z.eqb_spec (2 ^ k) 0); [lia|reflexivity].
Qed.

Lemma testbit_orIf (c : bool) (k f j : Z) :
  0 <= k ->
  Z.testbit (orIf c (Z.shiftl 1 k) f) j = (Z.testbit f j || (c && (k =? j)))%bool.
Proof.
  intros Hk. unfold orIf. destruct c; simpl.
  - rewrite Z.lor_spec, Z.shiftl_1_l, Z.pow2_bits_eqb by lia. reflexivity.
  - rewrite orb_false_r. reflexivity.
Qed.

Lemma testbit_clearFlags (h : Header) (f j : Z) :
  0 <= j ->
  Z.testbit (clearFlags h f) j
  = (Z.testbit f j
     && negb ((zero_bit h =? j) || (carry_bit h =? j) || (negative_bit h =? j)))%bool.
Proof.
  intros Hj. unfold clearFlags, FLAG_ZERO, FLAG_CARRY, FLAG_NEGATIVE.
  destruct (flag_bits_nonneg h) as (Hz & Hc & Hn).
  rewrite Z.land_spec, Z.lnot_spec, !Z.lor_spec by lia.
  rewrite !Z.shiftl_1_l, !Z.pow2_bits_eqb by lia. reflexivity.
Qed.

Lemma lor_disjoint_add (a b k : Z) :
  0 <= k -> 0 <= b < 2 ^ k -> Z.lor (a * 2 ^ k) b = a * 2 ^ k + b.
Proof.
  intros Hk Hb. rewrite <- Z.add_lor_land.
  assert (Z.land (a * 2 ^ k) b = 0) as ->; [|lia].
  apply Z.bits_inj'. intros n Hn. rewrite Z.land_spec, Z.bits_0.
  destruct (Z.lt_ge_cases n k) as [Hlt|Hge].
  - rewrite Z.mul_pow2_bits_low by lia. reflexivity.
  - rewrite <- (Z.mod_small b (2 ^ k)) by lia.
    rewrite Z.mod_pow2_bits_high by lia. apply andb_false_r.
Qed.

Lemma land_ones_small (a n : Z) :
  0 <= n -> 0 <= a < 2 ^ n -> Z.land a (Z.ones n) = a.
Proof.
  intros Hn Ha. rewrite Z.land_ones by lia. apply Z.mod_small. lia.
Qed.

Lemma encRR_sum (op rd rs : Z) :
  0 <= op < 16 -> 0 <= rd < 8 -> 0 <= rs < 8 ->
  encRR op rd rs = op * 4096 + rd * 512 + rs * 64.
Proof.
  intros Hop Hrd Hrs. unfold encRR, u16.
  change 15 with (Z.ones 4). change 7 with (Z.ones 3).
  rewrite (land_ones_small op 4), (land_ones_small rd 3), (land_ones_small rs 3)
    by (cbn; lia).
  rewrite !Z.shiftl_mul_pow2 by lia.
  rewrite (lor_disjoint_add op (rd * 2 ^ 9) 12) by (cbn; lia).
  replace (op * 2 ^ 12 + rd * 2 ^ 9) with ((op * 8 + rd) * 2 ^ 9) by (cbn; lia).
  rewrite lor_disjoint_add by (cbn; lia).
  change (2 ^ 9) with 512. change (2 ^ 6) with 64.
  rewrite Z.mod_small by lia. lia.
Qed.

Lemma encMOVI_sum (rd imm9 : Z) :
  0 <= rd < 8 -> 0 <= imm9 < 512 ->
  encMOVI rd imm9 = 4096 + rd * 512 + imm9.
Proof.
  intros Hrd Him. unfold encMOVI, u16.
  change 511 with (Z.ones 9). change 7 with (Z.ones 3).
  rewrite (land_ones_small rd 3), (land_ones_small imm9 9) by (cbn; lia).
  rewrite !Z.shiftl_mul_pow2 by lia.
  rewrite (lor_disjoint_add 1 (rd * 2 ^ 9) 12) by (cbn; lia).
  replace (1 * 2 ^ 12 + rd * 2 ^ 9) with ((8 + rd) * 2 ^ 9) by (cbn; lia).
  rewrite lor_disjoint_add by (cbn; lia).
  change (2 ^ 9) with 512.
  rewrite Z.mod_small by lia. lia.
Qed.

Lemma decodeOpcode_div (w : Z) : decodeOpcode w = (w / 4096) mod 16.
Proof.
  unfold decodeOpcode. change 15 with (Z.ones 4).
  rewrite Z.land_ones, Z.shiftr_div_pow2 by lia. reflexivity.
Qed.

Lemma decodeRd_div (w : Z) : decodeRd w = (w / 512) mod 8.
Proof.
  unfold decodeRd. change 7 with (Z.ones 3).
  rewrite Z.land_ones, Z.shiftr_div_pow2 by lia. reflexivity.
Qed.

Lemma decodeRs_div (w : Z) : decodeRs w = (w / 64) mod 8.
Proof.
  unfold decodeRs. change 7 with (Z.ones 3).
  rewrite Z.land_ones, Z.shiftr_div_pow2 by lia. reflexivity.
Qed.

Lemma decodeImm9_mod (w : Z) : decodeImm9 w = w mod 512.
Proof.
  unfold decodeImm9. change 511 with (Z.ones 9).
  rewrite Z.land_ones by lia. reflexivity.
Qed.

Lemma decode_encRR (op rd rs : Z) :
  0 <= op < 16 -> 0 <= rd < 8 -> 0 <= rs < 8 ->
  decodeOpcode (encRR op rd rs) = op /\
  decodeRd (encRR op rd rs) = rd /\
  decodeRs (encRR op rd rs) = rs.
Proof.
  intros Hop Hrd Hrs.
  rewrite decodeOpcode_div, decodeRd_div, decodeRs_div, encRR_sum by assumption.
  repeat split; Z.div_mod_to_equations; lia.
Qed.

Lemma decode_encMOVI (rd imm9 : Z) :
  0 <= rd < 8 -> 0 <= imm9 < 512 ->
  decodeOpcode (encMOVI rd imm9) = 1 /\
  decodeRd (encMOVI rd imm9) = rd /\
  decodeImm9 (encMOVI rd imm9) = imm9.
Proof.
  intros Hrd Him.
  rewrite decodeOpcode_div, decodeRd_div, decodeImm9_mod, encMOVI_sum by assumption.
  repeat split; Z.div_mod_to_equations; lia.
Qed.

(** C3. Encoder/decoder round trip: for every opcode in 0..15, every rd
    and rs in 0..7 and every imm9 in 0..511, decoding the word built by
    [encRR] gives back the opcode, rd and rs, and decoding the word built
    by [encMOVI] gives back opcode 1, rd and imm9. *)
Theorem codec_roundtrip (op rd rs imm9 : Z) :
  0 <= op <= 15 -> 0 <= rd <= 7 -> 0 <= rs <= 7 -> 0 <= imm9 <= 511 ->
  (decodeOpcode (encRR op rd rs) = op /\
  decodeRd (encRR op rd rs) = rd /\
  decodeRs (encRR op rd rs) = rs) /\
  (decodeOpcode (encMOVI rd imm9) = 1 /\
  decodeRd (encMOVI rd imm9) = rd /\
  decodeImm9 (encMOVI rd imm9) = imm9).
Proof.
  intros Hop Hrd Hrs Him. split.
  - apply decode_encRR; lia.
  - apply decode_encMOVI; lia.
Qed.

Lemma codec_roundtrip_witness :
  (decodeOpcode (encRR 14 0 7) = 14 /\
  decodeRd (encRR 14 0 7) = 0 /\
  decodeRs (encRR 14 0 7) = 7) /\
  (decodeOpcode (encMOVI 0 511) = 1 /\
  decodeRd (encMOVI 0 511) = 0 /\
  decodeImm9 (encMOVI 0 511) = 511).
Proof. apply (codec_roundtrip 14 0 7 511); lia. Defined.

(* ===================================================================== *)
(** ** Bus *)
(* ===================================================================== *)

Section BusFacts.

Context (h : Header).

Lemma read_outside (mem : gmap Z Z) (a : Z) :
  MEMORY_SIZE h <= a -> Bus.read h mem a = 0.
Proof.
  intros Ha. unfold Bus.read.
  destruct (Z.ltb_spec a (MEMORY_SIZE h)); [lia|reflexivity].
Qed.

Lemma write_outside (mem : gmap Z Z) (a v : Z) :
  MEMORY_SIZE h <= a -> Bus.write h mem a v = mem.
Proof.
  intros Ha. unfold Bus.write.
  destruct (Z.ltb_spec a (MEMORY_SIZE h)); [lia|reflexivity].
Qed.

Lemma read_write_same (mem : gmap Z Z) (a v : Z) :
  a < MEMORY_SIZE h -> Bus.read h (Bus.write h mem a v) a = v.
Proof.
  intros Ha. unfold Bus.read, Bus.write.
  destruct (Z.ltb_spec a (MEMORY_SIZE h)); [|lia].
  rewrite lookup_insert_eq. reflexivity.
Qed.

Lemma read_write_other (mem : gmap Z Z) (a b v : Z) :
  a <> b -> Bus.read h (Bus.write h mem b v) a = Bus.read h mem a.
Proof.
  intros Hne. unfold Bus.read, Bus.write.
  destruct (Z.ltb_spec b (MEMORY_SIZE h)); [|reflexivity].
  rewrite lookup_insert_ne by congruence. reflexivity.
Qed.

(** C5. Outside the capacity a bus read returns 0 and a bus write
    leaves the whole memory as it was (both are total functions: no
    error value exists); inside the capacity a read returns the value
    last written to that address, writes to other addresses and
    ignored writes in between notwithstanding. *)
Theorem bus_absorbs_out_of_range (mem : gmap Z Z) (a v : Z) :
  (MEMORY_SIZE h <= a ->
     Bus.read h mem a = 0 /\
     Bus.write h mem a v = mem /\
     forall b, Bus.read h (Bus.write h mem a v) b = Bus.read h mem b) /\
  (a < MEMORY_SIZE h ->
     Bus.read h (Bus.write h mem a v) a = v /\
     forall b w, b <> a ->
       Bus.read h (Bus.write h (Bus.write h mem a v) b w) a = v).
Proof.
  split.
  - intros Ha. split; [apply read_outside; exact Ha|].
    split; [apply write_outside; exact Ha|].
    intros b. rewrite write_outside by exact Ha. reflexivity.
  - intros Ha. split; [apply read_write_same; exact Ha|].
    intros b w Hne. rewrite read_write_other by congruence.
    apply read_write_same; exact Ha.
Qed.

End BusFacts.

(* ===================================================================== *)
(** ** One step of the engine *)
(* ===================================================================== *)

Section EngineFacts.

Context (h : Header).

Lemma execute_halted (w : Z) (c : GPRCPU) :
  halted (state (execute h w c))
  = match toOpcode (decodeOpcode w) with
    | HALT => true
    | _ => halted (state c)
    end.
Proof.
  unfold execute.
  destruct (toOpcode (decodeOpcode w)); try reflexivity.
  cbn. destruct (nonzero _); reflexivity.
Qed.

Lemma step_running (c : GPRCPU) :
  halted (state c) = false ->
  step h c =
    (negb (halted (state (execute h (Bus.read h (memory c) (PC (state c)))
                                  (fetched c)))),
     execute h (Bus.read h (memory c) (PC (state c))) (fetched c)).
Proof. intros Hrun. unfold step. rewrite Hrun. reflexivity. Qed.

(** C4. On a halted CPU [step] returns false and changes neither the
    CPU state nor the memory.  On a running CPU it fetches the word at
    PC, adds one to PC (in 16 bits) before executing the word, and
    returns the negation of the halted flag afterwards, which is false
    exactly when the word executed carries the halt opcode. *)
Theorem step_contract (c : GPRCPU) :
  (halted (state c) = true -> step h c = (false, c)) /\
  (halted (state c) = false ->
     let instruction := Bus.read h (memory c) (PC (state c)) in
     let c' := execute h instruction (fetched c) in
     PC (state (fetched c)) = (PC (state c) + 1) mod 65536 /\
     step h c = (negb (halted (state c')), c') /\
     (fst (step h c) = false <-> toOpcode (decodeOpcode instruction) = HALT)).
Proof.
  split.
  - intros Hh. unfold step. rewrite Hh. reflexivity.
  - intros Hrun. cbv zeta. split; [reflexivity|].
    split; [apply step_running; exact Hrun|].
    rewrite step_running by exact Hrun. cbn [fst].
    rewrite execute_halted. cbn [fetched state halted setPC].
    rewrite Hrun.
    destruct (toOpcode _); cbn; split; intros; congruence.
Qed.

End EngineFacts.

(* ===================================================================== *)
(** ** Flags and the register file *)
(* ===================================================================== *)

Section FlagFacts.

Context (h : Header).

Lemma getR_setR_same (s : CPUState) (i v : Z) :
  wfState s -> 0 <= i < 8 -> getR (setR s i v) i = v.
Proof.
  intros Hwf Hi. unfold getR, setR. cbn [R].
  apply list_lookup_total_insert_eq. unfold wfState in Hwf. lia.
Qed.

Lemma wfState_setR (s : CPUState) (i v : Z) : wfState s -> wfState (setR s i v).
Proof. unfold wfState, setR. cbn [R]. rewrite length_insert. tauto. Qed.

(** The three flag bits after the common prologue of the flag setters
    followed by the three conditional updates, whatever was there
    before.  [setResultFlags] is the case [cc = false]. *)
Lemma flags_after (f : Z) (cz cn cc : bool) :
  let f' := orIf cc (FLAG_CARRY h)
              (orIf cn (FLAG_NEGATIVE h)
                 (orIf cz (FLAG_ZERO h) (clearFlags h f))) in
  flagSet f' (FLAG_ZERO h) = cz /\
  flagSet f' (FLAG_NEGATIVE h) = cn /\
  flagSet f' (FLAG_CARRY h) = cc.
Proof.
  destruct (flag_bits_nonneg h) as (Hz & Hc & Hn).
  destruct (flag_bits_distinct h) as (Hzc & Hzn & Hcn).
  cbv zeta. unfold FLAG_ZERO, FLAG_CARRY, FLAG_NEGATIVE.
  rewrite !flagSet_testbit by lia.
  rewrite !testbit_orIf, !testbit_clearFlags by lia.
  rewrite !Z.eqb_refl.
  repeat match goal with
         | |- context [?a =? ?b] =>
             destruct (Z.eqb_spec a b); [congruence|]
         end.
  cbn. rewrite !andb_false_r, !orb_false_r. cbn.
  destruct cz, cn, cc; auto.
Qed.

Lemma setResultFlags_flags (result : Z) (s : CPUState) :
  let f' := FLAGS (setResultFlags h result s) in
  flagSet f' (FLAG_ZERO h) = (result =? 0) /\
  flagSet f' (FLAG_NEGATIVE h) = nonzero (Z.land result 32768) /\
  flagSet f' (FLAG_CARRY h) = false.
Proof.
  cbv zeta. unfold setResultFlags. cbn [FLAGS setFLAGS].
  exact (flags_after (FLAGS s) (result =? 0)
           (nonzero (Z.land result 32768)) false).
Qed.

Lemma setAddFlags_flags (a b result : Z) (s : CPUState) :
  let f' := FLAGS (setAddFlags h a b result s) in
  flagSet f' (FLAG_ZERO h) = (result =? 0) /\
  flagSet f' (FLAG_NEGATIVE h) = nonzero (Z.land result 32768) /\
  flagSet f' (FLAG_CARRY h) = (65535 <? a + b).
Proof.
  cbv zeta. unfold setAddFlags. cbn [FLAGS setFLAGS].
  exact (flags_after (FLAGS s) (result =? 0)
           (nonzero (Z.land result 32768)) (65535 <? a + b)).
Qed.

End FlagFacts.

Section Arithmetic.

Context (h : Header).

Lemma decodeRd_range (w : Z) : 0 <= decodeRd w < 8.
Proof. rewrite decodeRd_div. apply Z.mod_pos_bound. lia. Qed.

Lemma decodeRs_range (w : Z) : 0 <= decodeRs w < 8.
Proof. rewrite decodeRs_div. apply Z.mod_pos_bound. lia. Qed.

Lemma bit15_test (x : Z) : nonzero (Z.land x 32768) = Z.testbit x 15.
Proof. exact (flagSet_testbit x 15 ltac:(lia)). Qed.

(** C2. Executing an ADD instruction whose fields name [rd] and [rs],
    from a state with [R[rd] = a] and [R[rs] = b] (16-bit values; the
    two coincide when [rd = rs], both being the same cell), leaves
    [R[rd] = (a + b) mod 65536]; afterwards the Carry flag is set
    exactly when [a + b > 65535], the Zero flag exactly when the wrapped
    result is 0 and the Negative flag exactly when its bit 15 is set,
    whatever the flags were before. *)
Theorem ADD_wraps_and_carries (c : GPRCPU) (w a b : Z) :
  wfState (state c) ->
  toOpcode (decodeOpcode w) = ADD ->
  is_u16 a -> is_u16 b ->
  getR (state c) (decodeRd w) = a ->
  getR (state c) (decodeRs w) = b ->
  let c' := execute h w c in
  let f' := FLAGS (state c') in
  getR (state c') (decodeRd w) = (a + b) mod 65536 /\
  (flagSet f' (FLAG_CARRY h) = true <-> a + b > 65535) /\
  (flagSet f' (FLAG_ZERO h) = true <-> (a + b) mod 65536 = 0) /\
  (flagSet f' (FLAG_NEGATIVE h) = true <-> Z.testbit ((a + b) mod 65536) 15 = true).
Proof.
  intros Hwf Hop Ha Hb HRd HRs. cbv zeta.
  unfold execute. rewrite Hop, HRd, HRs. cbn [state].
  pose proof (setAddFlags_flags h a b (u16 (a + b))
                (setR (state c) (decodeRd w) (u16 (a + b)))) as Hf.
  cbv zeta in Hf. destruct Hf as (Hz & Hn & Hc).
  rewrite Hz, Hn, Hc, bit15_test. unfold u16.
  split.
  - unfold setAddFlags.
    change (getR (setR (state c) (decodeRd w) ((a + b) mod 65536)) (decodeRd w)
            = (a + b) mod 65536).
    apply getR_setR_same; [exact Hwf|apply decodeRd_range].
  - split; [|split].
    + rewrite Z.ltb_lt. lia.
    + rewrite Z.eqb_eq. tauto.
    + tauto.
Qed.

End Arithmetic.

(* ===================================================================== *)
(** ** The two-word expansion of a jump to a label *)
(* ===================================================================== *)

(** Tokens [t0 arg ...] of a JMP/JZ line whose target is not a register:
    below capacity and with a target of at most 511, the second loop
    stores [MOVI R7, target] at the cursor and the register jump through
    R7 right after it. *)
Lemma pass2_jump_expansion (labels : gmap string Z) (memSize : Z) (n : nat)
    (t0 arg : string) (more : list string) (pc op target : Z) :
  getOpcode (toUpper t0) = op -> op = 13 \/ op = 14 ->
  parseReg arg = NotReg ->
  resolve labels arg = Some target ->
  pc < memSize ->
  pass2_command labels memSize n (t0 :: arg :: more) pc =
    if 511 <? target then Fail (failure JumpTargetTooLarge n)
    else Go (mkEmit (u16 (u16 (pc + 1) + 1))
                    [(pc, encMOVI 7 target); (u16 (pc + 1), encRR op 0 7)]).
Proof.
  intros Hop Hjmp Hreg Hres Hpc. unfold pass2_command. cbn [hd].
  assert (String.eqb (toUpper t0) ".ORG" = false) as ->.
  { destruct (String.eqb_spec (toUpper t0) ".ORG") as [E|]; [|reflexivity].
    rewrite E in Hop. vm_compute in Hop. lia. }
  assert (String.eqb (toUpper t0) ".WORD" = false) as ->.
  { destruct (String.eqb_spec (toUpper t0) ".WORD") as [E|]; [|reflexivity].
    rewrite E in Hop. vm_compute in Hop. lia. }
  destruct (Z.leb_spec memSize pc); [lia|].
  destruct Hjmp as [E|E]; rewrite E in Hop |- *;
    rewrite Hop, Hreg, Hres; reflexivity.
Qed.

Section Expansion.

Context (h : Header).

Lemma execute_MOVI (w : Z) (c : GPRCPU) :
  decodeOpcode w = 1 ->
  execute h w c =
    mkGPRCPU (setResultFlags h
                (getR (setR (state c) (decodeRd w) (decodeImm9 w)) (decodeRd w))
                (setR (state c) (decodeRd w) (decodeImm9 w)))
             (memory c).
Proof. intros Hop. unfold execute. rewrite Hop. reflexivity. Qed.

Lemma execute_JZ (w : Z) (c : GPRCPU) :
  decodeOpcode w = 14 ->
  execute h w c =
    if flagSet (FLAGS (state c)) (FLAG_ZERO h)
    then mkGPRCPU (setPC (state c) (getR (state c) (decodeRs w))) (memory c)
    else c.
Proof. intros Hop. unfold execute. rewrite Hop. reflexivity. Qed.

(** The pair [MOVI R7, target; JZ R7] run from the address of its
    first word. *)
Lemma movi_jz_pair (c : GPRCPU) (target : Z) :
  wfState (state c) ->
  halted (state c) = false ->
  0 <= target <= 511 ->
  Bus.read h (memory c) (PC (state c)) = encMOVI 7 target ->
  Bus.read h (memory c) (u16 (PC (state c) + 1)) = encRR 14 0 7 ->
  let c1 := snd (step h c) in
  let c2 := snd (step h c1) in
  (flagSet (FLAGS (state c1)) (FLAG_ZERO h) = true <-> target = 0) /\
  getR (state c1) 7 = target /\
  (target <> 0 -> PC (state c2) = u16 (u16 (PC (state c) + 1) + 1)) /\
  (target = 0 -> PC (state c2) = 0).
Proof.
  intros Hwf Hrun Ht Hw1 Hw2. cbv zeta.
  destruct (decode_encMOVI 7 target) as (Hop1 & Hrd1 & Him1); [lia|lia|].
  destruct (decode_encRR 14 0 7) as (Hop2 & _ & Hrs2); [lia|lia|lia|].
  rewrite (step_running h c Hrun), Hw1. cbn [snd].
  rewrite (execute_MOVI _ _ Hop1), Hrd1, Him1.
  assert (wfState (state (fetched c))) as Hwf1 by exact Hwf.
  rewrite (getR_setR_same _ 7 target Hwf1) by lia.
  set (s1 := setResultFlags h target (setR (state (fetched c)) 7 target)).
  assert (getR s1 7 = target) as HR7.
  { subst s1. unfold setResultFlags.
    change (getR (setR (state (fetched c)) 7 target) 7 = target).
    apply getR_setR_same; [exact Hwf1|lia]. }
  assert (flagSet (FLAGS s1) (FLAG_ZERO h) = (target =? 0)) as HZ.
  { subst s1. apply setResultFlags_flags. }
  assert (halted s1 = false) as Hrun1 by exact Hrun.
  assert (PC s1 = u16 (PC (state c) + 1)) as HPC1 by reflexivity.
  cbn [state]. split; [|split; [exact HR7|]].
  - rewrite HZ, Z.eqb_eq. tauto.
  - rewrite step_running by exact Hrun1. cbn [snd memory state].
    change (memory (fetched c)) with (memory c).
    rewrite HPC1, Hw2, (execute_JZ _ _ Hop2), Hrs2.
    change (FLAGS (state (fetched (mkGPRCPU s1 (memory c))))) with (FLAGS s1).
    rewrite HZ.
    split; intros Htarget.
    + destruct (Z.eqb_spec target 0); [contradiction|].
      cbn [fetched state PC setPC]. rewrite HPC1. reflexivity.
    + destruct (Z.eqb_spec target 0); [|contradiction].
      change (getR s1 7 = 0). rewrite HR7. exact Htarget.
Qed.

(** C9. For a [JZ] line whose target is not a register and resolves
    to [target] (at most 511), the second loop stores [MOVI R7, target]
    at the cursor and [JZ R7] after it.  When a running CPU executes
    that pair from the cursor address, the MOVI recomputes the flags:
    after it the Zero flag is set exactly when [target] is 0.  So for
    every non-zero target the JZ is not taken and control falls
    through to the word after the pair, whatever the Zero flag was on
    entry; only for target 0 does the pair transfer control. *)
Theorem expanded_JZ_falls_through (labels : gmap string Z) (memSize : Z)
    (n : nat) (t0 arg : string) (more : list string) (target : Z)
    (c : GPRCPU) :
  getOpcode (toUpper t0) = 14 ->
  parseReg arg = NotReg ->
  resolve labels arg = Some target ->
  0 <= target <= 511 ->
  PC (state c) < memSize ->
  wfState (state c) ->
  halted (state c) = false ->
  let pc := PC (state c) in
  let pair := [(pc, encMOVI 7 target); (u16 (pc + 1), encRR 14 0 7)] in
  pass2_command labels memSize n (t0 :: arg :: more) pc
    = Go (mkEmit (u16 (u16 (pc + 1) + 1)) pair) /\
  ((forall a v, (a, v) ∈ pair -> Bus.read h (memory c) a = v) ->
   let c1 := snd (step h c) in
   let c2 := snd (step h c1) in
   (flagSet (FLAGS (state c1)) (FLAG_ZERO h) = true <-> target = 0) /\
   (target <> 0 -> PC (state c2) = u16 (u16 (pc + 1) + 1)) /\
   (target = 0 -> PC (state c2) = 0)).
Proof.
  intros Hop Hreg Hres Ht Hpc Hwf Hrun. cbv zeta. split.
  - rewrite (pass2_jump_expansion labels memSize n t0 arg more _ 14 target)
      by (auto; lia).
    destruct (Z.ltb_spec 511 target); [lia|reflexivity].
  - intros Hmem.
    destruct (movi_jz_pair c target) as (HZ & _ & Hne & Heq);
      try assumption.
    + apply Hmem. constructor.
    + apply Hmem. do 2 constructor.
    + auto.
Qed.

End Expansion.

(* ===================================================================== *)
(** ** The second loop over a whole program *)
(* ===================================================================== *)

Lemma pass2_app (labels : gmap string Z) (memSize : Z) (pre rest : list string)
    (n : nat) (st : Emit) :
  pass2 labels memSize (pre ++ rest) n st =
    match pass2 labels memSize pre n st with
    | (st', Done) => pass2 labels memSize rest (n + length pre)%nat st'
    | r => r
    end.
Proof.
  revert n st. induction pre as [|line pre IH]; intros n st; cbn.
  - rewrite Nat.add_0_r. reflexivity.
  - destruct (pass2_line labels memSize (S n) line (cursor st)); try reflexivity.
    rewrite IH. rewrite Nat.add_succ_comm. reflexivity.
Qed.

(** Every error result of the second loop body carries the number of the
    line being read. *)
Lemma pass2_command_fail_line (labels : gmap string Z) (memSize : Z) (n : nat)
    (tok : list string) (pc : Z) (res : AssembleResult) :
  pass2_command labels memSize n tok pc = Fail res -> lineNum res = n.
Proof.
  unfold pass2_command, emit.
  repeat match goal with
         | |- context [match ?x with _ => _ end] => destruct x
         end;
    intros E; try discriminate E; injection E as <-; reflexivity.
Qed.

Lemma pass2_line_fail_line (labels : gmap string Z) (memSize : Z) (n : nat)
    (line : string) (pc : Z) (res : AssembleResult) :
  pass2_line labels memSize n line pc = Fail res -> lineNum res = n.
Proof.
  unfold pass2_line. destruct (readLine line); try discriminate.
  apply pass2_command_fail_line.
Qed.

(** An error result of the loop started after line [n] names a later
    line. *)
Lemma pass2_error_later (labels : gmap string Z) (memSize : Z)
    (lines : list string) (n : nat) (st st' : Emit) (res : AssembleResult) :
  pass2 labels memSize lines n st = (st', Error res) -> (n < lineNum res)%nat.
Proof.
  revert n st. induction lines as [|line lines IH]; intros n st; cbn.
  - discriminate.
  - destruct (pass2_line labels memSize (S n) line (cursor st)) eqn:E.
    + intros H. apply IH in H. lia.
    + intros H. injection H as _ <-. apply pass2_line_fail_line in E. lia.
    + discriminate.
Qed.

Lemma cursorAt_prefix (labels : gmap string Z) (memSize : Z)
    (lines : list string) (k : nat) (pc : Z) :
  cursorAt labels memSize lines k = Some pc ->
  exists w, pass2 labels memSize (take k lines) 0 (mkEmit 0 [])
            = (mkEmit pc w, Done).
Proof.
  unfold cursorAt.
  destruct (pass2 labels memSize (take k lines) 0 (mkEmit 0 [])) as [[pc' w] [| |]];
    try discriminate.
  intros [= <-]. exists w. reflexivity.
Qed.

Lemma mnemonic_not_directive (cmd : string) :
  0 <= getOpcode cmd ->
  String.eqb cmd ".ORG" = false /\ String.eqb cmd ".WORD" = false.
Proof.
  intros Hop. split.
  - destruct (String.eqb_spec cmd ".ORG") as [E|]; [|reflexivity].
    rewrite E in Hop. vm_compute in Hop. contradiction.
  - destruct (String.eqb_spec cmd ".WORD") as [E|]; [|reflexivity].
    rewrite E in Hop. vm_compute in Hop. contradiction.
Qed.

(** The capacity check precedes the decoding of the operands. *)
Lemma pass2_capacity_first (labels : gmap string Z) (memSize : Z) (n : nat)
    (t0 : string) (more : list string) (pc : Z) :
  0 <= getOpcode (toUpper t0) ->
  memSize <= pc ->
  pass2_command labels memSize n (t0 :: more) pc
    = Fail (failure ProgramTooLarge n).
Proof.
  intros Hop Hpc. unfold pass2_command. cbn [hd].
  destruct (mnemonic_not_directive _ Hop) as [-> ->].
  destruct (Z.ltb_spec (getOpcode (toUpper t0)) 0); [lia|].
  destruct (Z.leb_spec memSize pc); [reflexivity|lia].
Qed.

(** The second loop of [assemble] split at line [k + 1]. *)
Lemma assemble_at_line (source : string) (memSize : Z) (k : nat)
    (line : string) (labels : gmap string Z) (pc : Z) :
  labelsOf source = Some labels ->
  getlines source !! k = Some line ->
  cursorAt labels memSize (getlines source) k = Some pc ->
  exists w,
    assemble source memSize =
      outcome
        (match pass2_line labels memSize (S k) line pc with
         | Go e => pass2 labels memSize (drop (S k) (getlines source)) (S k)
                         (mkEmit (cursor e) (w ++ stores e))
         | Fail res => (mkEmit pc w, Error res)
         | Throw => (mkEmit pc w, Raised)
         end).
Proof.
  intros Hlab Hline Hcur.
  destruct (cursorAt_prefix _ _ _ _ _ Hcur) as [w Hpre]. exists w.
  unfold assemble. unfold labelsOf in Hlab.
  destruct (pass1 (getlines source) 0 (0, ∅)) as [[pc1 labels']| |];
    try discriminate.
  injection Hlab as ->.
  rewrite <- (take_drop_middle (getlines source) k line Hline) at 1.
  rewrite pass2_app, Hpre.
  rewrite length_take_le by (apply lookup_lt_Some in Hline; lia).
  cbn [pass2 Nat.add cursor stores]. reflexivity.
Qed.

Lemma peel_plain (n : nat) (s : string) :
  frontIs s 40 = false -> peel n s = s.
Proof.
  intros H. destruct n as [|n]; [reflexivity|]. cbn [peel].
  rewrite H, andb_false_r. reflexivity.
Qed.

(** An operand whose first character is none of [(], [R] and [r] is
    answered with false by [parseReg], without any call of [std::stoi]. *)
Lemma parseReg_plain (s : string) :
  frontIs s 40 = false -> frontIs s 82 = false -> frontIs s 114 = false ->
  parseReg s = NotReg.
Proof.
  intros Hp HR Hr. unfold parseReg. rewrite (peel_plain _ _ Hp), HR, Hr.
  cbn [orb negb]. rewrite orb_true_r. reflexivity.
Qed.

(** C6, as the code has it.  Take a JMP or JZ line whose target operand
    [parseReg] answers with false (it neither is a register nor makes
    [std::stoi] throw; every operand whose first character is none of
    [(], [R] and [r] is of that kind) and whose target resolves, as a
    label or else as a number, to [target]; let the second loop read it
    as line [k + 1] with cursor [pc].  If [pc] is at or beyond
    [memSize], the capacity check stops the assembly first, with
    "Program too large" for that line.  Otherwise, a resolved target
    above 511 makes [assemble] return the JumpTargetTooLarge error with
    that line's number, and a resolved target of at most 511 never
    does. *)
Theorem jump_target_limit (source : string) (memSize : Z) (k : nat)
    (line : string) (labels : gmap string Z) (t0 arg : string)
    (more : list string) (target pc : Z) :
  labelsOf source = Some labels ->
  getlines source !! k = Some line ->
  cursorAt labels memSize (getlines source) k = Some pc ->
  readLine line = Command (t0 :: arg :: more) ->
  getOpcode (toUpper t0) = 13 \/ getOpcode (toUpper t0) = 14 ->
  parseReg arg = NotReg ->
  resolve labels arg = Some target ->
  (memSize <= pc ->
     exists w, assemble source memSize
               = Returned (failure ProgramTooLarge (S k)) w) /\
  (pc < memSize -> 511 < target ->
     exists w, assemble source memSize
               = Returned (failure JumpTargetTooLarge (S k)) w) /\
  (pc < memSize -> target <= 511 ->
     forall w, assemble source memSize
               <> Returned (failure JumpTargetTooLarge (S k)) w) /\
  (forall s, frontIs s 40 = false -> frontIs s 82 = false ->
             frontIs s 114 = false -> parseReg s = NotReg).
Proof.
  intros Hlab Hline Hcur Hread Hop Hreg Hres.
  destruct (assemble_at_line _ memSize _ _ _ _ Hlab Hline Hcur) as [w0 Hasm].
  unfold pass2_line in Hasm. rewrite Hread in Hasm.
  split; [|split; [|split; [|exact parseReg_plain]]].
  - intros Hpc. exists w0.
    rewrite pass2_capacity_first in Hasm by (destruct Hop; lia).
    exact Hasm.
  - intros Hpc Hbig. exists w0.
    rewrite (pass2_jump_expansion _ _ _ _ _ _ _ _ target eq_refl Hop Hreg Hres Hpc)
      in Hasm.
    destruct (Z.ltb_spec 511 target); [exact Hasm|lia].
  - intros Hpc Hsmall w Hbad.
    rewrite (pass2_jump_expansion _ _ _ _ _ _ _ _ target eq_refl Hop Hreg Hres Hpc)
      in Hasm.
    destruct (Z.ltb_spec 511 target); [lia|].
    rewrite Hasm in Hbad.
    destruct (pass2 labels memSize (drop (S k) (getlines source)) (S k) _)
      as [st' [|res|]] eqn:Hrest; cbn in Hbad; try discriminate.
    injection Hbad as -> _.
    apply pass2_error_later in Hrest. cbn in Hrest. lia.
Qed.

(* ===================================================================== *)
(** ** The [.WORD] directive *)
(* ===================================================================== *)

Lemma poke_last (mem : gmap Z Z) (w : list (Z * Z)) (a v : Z) :
  poke mem (w ++ [(a, v)]) !! a = Some v.
Proof. unfold poke. rewrite foldl_app. cbn. apply lookup_insert_eq. Qed.

Lemma word_not_org (t0 : string) :
  toUpper t0 = ".WORD" -> String.eqb (toUpper t0) ".ORG" = false.
Proof. intros ->. reflexivity. Qed.


(* ===================================================================== *)
(** ** Single instructions in the second loop *)
(* ===================================================================== *)

(** Below capacity, a line whose mnemonic has opcode [op] reaches the
    operand decoding for that opcode. *)
Lemma pass2_HALT (labels : gmap string Z) (memSize : Z) (n : nat)
    (t0 : string) (more : list string) (pc : Z) :
  getOpcode (toUpper t0) = 0 -> pc < memSize ->
  pass2_command labels memSize n (t0 :: more) pc = emit pc 0.
Proof.
  intros Hop Hpc. unfold pass2_command. cbn [hd].
  destruct (mnemonic_not_directive (toUpper t0)) as [-> ->]; [lia|].
  rewrite Hop. destruct (Z.leb_spec memSize pc); [lia|reflexivity].
Qed.

Lemma pass2_NOP (labels : gmap string Z) (memSize : Z) (n : nat)
    (t0 : string) (more : list string) (pc : Z) :
  getOpcode (toUpper t0) = 15 -> pc < memSize ->
  pass2_command labels memSize n (t0 :: more) pc = emit pc 61440.
Proof.
  intros Hop Hpc. unfold pass2_command. cbn [hd].
  destruct (mnemonic_not_directive (toUpper t0)) as [-> ->]; [lia|].
  rewrite Hop. destruct (Z.leb_spec memSize pc); [lia|reflexivity].
Qed.

Lemma pass2_MOVI (labels : gmap string Z) (memSize : Z) (n : nat)
    (t0 t1 immStr : string) (more : list string) (pc rd imm : Z) :
  getOpcode (toUpper t0) = 1 -> pc < memSize ->
  parseReg t1 = IsReg rd ->
  resolve labels immStr = Some imm ->
  pass2_command labels memSize n (t0 :: t1 :: immStr :: more) pc
    = emit pc (encMOVI rd (Z.land imm 511)).
Proof.
  intros Hop Hpc Hreg Himm. unfold pass2_command. cbn [hd].
  destruct (mnemonic_not_directive (toUpper t0)) as [-> ->]; [lia|].
  rewrite Hop, Hreg, Himm.
  destruct (Z.leb_spec memSize pc); [lia|reflexivity].
Qed.

(** In the first loop every mnemonic counts for one word, the jumps to
    a label included. *)
Lemma pass1_mnemonic (n : nat) (t0 : string) (more : list string) (pc : Z) :
  0 <= getOpcode (toUpper t0) ->
  pass1_command n (t0 :: more) pc = Go (u16 (pc + 1)).
Proof.
  intros Hop. unfold pass1_command. cbn [hd].
  destruct (mnemonic_not_directive _ Hop) as [-> ->].
  destruct (Z.leb_spec 0 (getOpcode (toUpper t0))); [reflexivity|lia].
Qed.


(* ===================================================================== *)
(** ** Running assembled programs *)
(* ===================================================================== *)

Ltac read_line :=
  match goal with
  | |- context [readLine ?l] =>
      let r := eval vm_compute in (readLine l) in
      change (readLine l) with r; cbv beta iota
  end.

Section Running.

Context (h : Header).

Lemma step_fetch (c : GPRCPU) (w : Z) :
  halted (state c) = false ->
  Bus.read h (memory c) (PC (state c)) = w ->
  snd (step h c) = execute h w (fetched c).
Proof. intros Hrun <-. rewrite step_running by exact Hrun. reflexivity. Qed.

Lemma bus_read_poked (w : list (Z * Z)) (a v : Z) :
  a < MEMORY_SIZE h -> poke ∅ w !! a = Some v ->
  Bus.read h (poke ∅ w) a = v.
Proof.
  intros Ha Hv. unfold Bus.read. rewrite Hv.
  destruct (Z.ltb_spec a (MEMORY_SIZE h)); [reflexivity|lia].
Qed.

Lemma zero_clear_after_clearFlags (f : Z) :
  flagSet (clearFlags h f) (FLAG_ZERO h) = false.
Proof. exact (proj1 (flags_after h f false false false)). Qed.

End Running.

(** C1 on the forward-reference program of the specification.  The first
    loop counts the line [JZ DONE] for one word and binds DONE to 2; the
    second loop stores two words for that line and reaches the label's
    line with cursor 3.  Address 2 holds the encoded [MOVI R0, 1], not
    the word after it.  Started with the Zero flag set, the machine falls
    through the expanded jump (PC is 2 after two steps), executes the
    MOVI (R0 is 1 after three steps) and only then halts. *)
Theorem forward_label_bound_to_MOVI (h : Header) (memSize : Z) :
  4 <= MEMORY_SIZE h ->
  4 <= memSize ->
  let lines := getlines forward_label_program in
  let labels : gmap string Z := {["DONE" := 2]} in
  let w := [(0, encMOVI 7 2); (1, encRR 14 0 7); (2, encMOVI 0 1); (3, 0)] in
  labelsOf forward_label_program = Some labels /\
  lines !! 2%nat = Some "DONE:" /\
  cursorAt labels memSize lines 2 = Some 3 /\
  pass1_line 1 "JZ DONE" (0, ∅) = Go (1, ∅) /\
  pass2_line labels memSize 1 "JZ DONE" 0
    = Go (mkEmit 2 [(0, encMOVI 7 2); (1, encRR 14 0 7)]) /\
  assemble forward_label_program memSize
    = Returned (mkResult true EmptyString 0) w /\
  PC (state (steps h 2 (bootZ h w))) = 2 /\
  getR (state (steps h 3 (bootZ h w))) 0 = 1 /\
  halted (state (steps h 3 (bootZ h w))) = false /\
  halted (state (steps h 4 (bootZ h w))) = true.
Proof.
  intros Hcap Hmem. cbv zeta.
  assert (getlines forward_label_program
          = ["JZ DONE"; "MOVI R0, 1"; "DONE:"; "HALT"]) as Hlines
      by (vm_compute; reflexivity).
  assert (labelsOf forward_label_program = Some {["DONE" := 2]}) as Hlab
      by (vm_compute; reflexivity).
  assert (forall n, pass2_line {["DONE" := 2]} memSize n "JZ DONE" 0
          = Go (mkEmit 2 [(0, encMOVI 7 2); (1, encRR 14 0 7)])) as HJZ.
  { intros n. unfold pass2_line. read_line.
    rewrite (pass2_jump_expansion _ _ _ _ _ _ _ 14 2);
      [reflexivity|reflexivity|right; reflexivity| | |lia];
      vm_compute; reflexivity. }
  assert (forall n, pass2_line {["DONE" := 2]} memSize n "MOVI R0, 1" 2
          = Go (mkEmit 3 [(2, encMOVI 0 1)])) as HMOVI.
  { intros n. unfold pass2_line. read_line.
    rewrite (pass2_MOVI _ _ _ _ _ _ _ _ 0 1);
      [reflexivity| |lia| |]; vm_compute; reflexivity. }
  assert (forall n, pass2_line {["DONE" := 2]} memSize n "HALT" 3
          = Go (mkEmit 4 [(3, 0)])) as HHALT.
  { intros n. unfold pass2_line. read_line.
    rewrite pass2_HALT; [reflexivity| |lia]. vm_compute; reflexivity. }
  split; [exact Hlab|].
  rewrite Hlines.
  split; [reflexivity|].
  split.
  { unfold cursorAt. cbn [take pass2 cursor stores].
    rewrite HJZ. cbn [cursor stores]. rewrite HMOVI. reflexivity. }
  split; [vm_compute; reflexivity|].
  split; [apply HJZ|].
  split.
  { unfold assemble. unfold labelsOf in Hlab. rewrite Hlines in *.
    destruct (pass1 _ 0 (0, ∅)) as [[pc1 labels']| |]; try discriminate.
    injection Hlab as ->.
    cbn [pass2 cursor stores]. rewrite HJZ. cbn [cursor stores].
    rewrite HMOVI. cbn [cursor stores].
    assert (pass2_line {["DONE" := 2]} memSize 3 "DONE:" 3
            = Go (mkEmit 3 [])) as -> by (unfold pass2_line; read_line; reflexivity).
    cbn [cursor stores]. rewrite HHALT. reflexivity. }
  set (w := [(0, encMOVI 7 2); (1, encRR 14 0 7); (2, encMOVI 0 1); (3, 0)]).
  set (mem := poke ∅ w).
  set (r1 := [0; 0; 0; 0; 0; 0; 0; 2]).
  set (f1 := clearFlags h (FLAG_ZERO h)).
  assert (snd (step h (bootZ h w))
          = mkGPRCPU (mkCPUState r1 1 f1 false) mem) as H1.
  { rewrite (step_fetch h _ (encMOVI 7 2)); [reflexivity|reflexivity|].
    apply bus_read_poked; [cbn; lia|vm_compute; reflexivity]. }
  assert (snd (step h (mkGPRCPU (mkCPUState r1 1 f1 false) mem))
          = mkGPRCPU (mkCPUState r1 2 f1 false) mem) as H2.
  { rewrite (step_fetch h _ (encRR 14 0 7));
      [|reflexivity|apply bus_read_poked; [cbn; lia|vm_compute; reflexivity]].
    rewrite execute_JZ by reflexivity.
    change (FLAGS (state (fetched (mkGPRCPU (mkCPUState r1 1 f1 false) mem))))
      with (clearFlags h (FLAG_ZERO h)).
    rewrite zero_clear_after_clearFlags. reflexivity. }
  assert (snd (step h (mkGPRCPU (mkCPUState r1 2 f1 false) mem))
          = mkGPRCPU (mkCPUState [1; 0; 0; 0; 0; 0; 0; 2] 3 (clearFlags h f1) false)
                     mem) as H3.
  { rewrite (step_fetch h _ (encMOVI 0 1)); [reflexivity|reflexivity|].
    apply bus_read_poked; [cbn; lia|vm_compute; reflexivity]. }
  assert (snd (step h (mkGPRCPU
                         (mkCPUState [1; 0; 0; 0; 0; 0; 0; 2] 3 (clearFlags h f1) false)
                         mem))
          = mkGPRCPU (mkCPUState [1; 0; 0; 0; 0; 0; 0; 2] 4 (clearFlags h f1) true)
                     mem) as H4.
  { rewrite (step_fetch h _ 0); [reflexivity|reflexivity|].
    apply bus_read_poked; [cbn; lia|vm_compute; reflexivity]. }
  cbn [steps]. rewrite H1, H2. split; [reflexivity|].
  rewrite H3. split; [reflexivity|]. split; [reflexivity|].
  rewrite H4. reflexivity.
Qed.

(* ===================================================================== *)
(** ** Programs on which the assembler departs from its specification *)
(* ===================================================================== *)

(** C6 as stated fails.  In [NOP / JMP 600] assembled into a buffer of
    one word, line 2 is a JMP whose target is not a register and
    resolves to 600, yet [assemble] returns "Program too large" for
    line 2: the capacity check comes before the target is looked at.
    In [.ORG 600 / RESET: / JMP RESET] line 3 is a JMP to a label bound
    to 600, yet no error is returned at all: [parseReg] hands "ESET" to
    [std::stoi], whose exception leaves [assemble]. *)
Lemma jump_above_511_other_outcomes :
  (labelsOf full_then_jump_program = Some ∅ /\
   getlines full_then_jump_program !! 1%nat = Some "JMP 600" /\
   readLine "JMP 600" = Command ["JMP"; "600"] /\
   getOpcode (toUpper "JMP") = 13 /\
   parseReg "600" = NotReg /\
   resolve ∅ "600" = Some 600 /\
   511 < 600 /\
   assemble full_then_jump_program 1
     = Returned (failure ProgramTooLarge 2) [(0, 61440)] /\
   ~ (exists w, assemble full_then_jump_program 1
                = Returned (failure JumpTargetTooLarge 2) w)) /\
  (labelsOf r_label_jump_program = Some {["RESET" := 600]} /\
   getlines r_label_jump_program !! 2%nat = Some "JMP RESET" /\
   readLine "JMP RESET" = Command ["JMP"; "RESET"] /\
   parseReg "RESET" = RegThrows /\
   resolve {["RESET" := 600]} "RESET" = Some 600 /\
   cursorAt {["RESET" := 600]} 65536 (getlines r_label_jump_program) 2
     = Some 600 /\
   assemble r_label_jump_program 65536 = Thrown [] /\
   ~ (exists w, assemble r_label_jump_program 65536
                = Returned (failure JumpTargetTooLarge 3) w)).
Proof.
  assert (assemble full_then_jump_program 1
          = Returned (failure ProgramTooLarge 2) [(0, 61440)]) as Hasm
      by (vm_compute; reflexivity).
  assert (assemble r_label_jump_program 65536 = Thrown []) as Hthrow
      by (vm_compute; reflexivity).
  split.
  - repeat (split; [vm_compute; reflexivity|]).
    intros [w Hw]. rewrite Hasm in Hw. discriminate Hw.
  - repeat (split; [vm_compute; reflexivity|]).
    intros [w Hw]. rewrite Hthrow in Hw. discriminate Hw.
Qed.


(** C8 on [DATA: / .WORD DATA].  The first loop binds DATA to 0, but the
    [.WORD] branch of the second loop never consults the label table: it
    hands the operand to [parseNumber], whose [std::stoul] throws on
    "DATA", and nothing is written.  The same holds for any operand that
    is not a number, whatever the labels.  An operand that is both a
    label and a number ([10:] bound to 1, then [.WORD 10]) is stored as
    the number. *)
Theorem word_operand_not_resolved (memSize : Z) :
  labelsOf word_label_program = Some {["DATA" := 0]} /\
  assemble word_label_program memSize = Thrown [] /\
  (forall (labels : gmap string Z) (n : nat) (t : string) (pc : Z),
     parseNumber t = None ->
     pass2_command labels memSize n [".WORD"; t] pc = Throw) /\
  labelsOf word_numeric_label_program = Some {["10" := 1]} /\
  assemble word_numeric_label_program 65536
    = Returned (mkResult true EmptyString 0) [(0, 61440); (1, 10)].
Proof.
  split; [vm_compute; reflexivity|].
  split; [vm_compute; reflexivity|].
  split.
  - intros labels n t pc Ht. unfold pass2_command. cbn [hd].
    change (toUpper ".WORD") with ".WORD". cbn [String.eqb Ascii.eqb].
    rewrite Ht. reflexivity.
  - split; vm_compute; reflexivity.
Qed.

(** C10 on [NOP / JMP 0] assembled into a buffer of two words.  The
    capacity check passes for line 2 with the cursor at 1; the expansion
    then stores [MOVI R7, 0] at index 1 and the jump word at index 2,
    which is not below [memSize], and [assemble] reports success. *)
Theorem expansion_stores_past_buffer :
  let memSize := 2 in
  let w := [(0, 61440); (1, encMOVI 7 0); (2, encRR 13 0 7)] in
  assemble jump_at_end_program memSize
    = Returned (mkResult true EmptyString 0) w /\
  (2, encRR 13 0 7) ∈ w /\
  ~ Forall (fun s : Z * Z => fst s < memSize) w.
Proof.
  cbv zeta. split; [vm_compute; reflexivity|].
  split; [do 3 constructor|].
  intros Hall. rewrite !Forall_cons in Hall. cbn in Hall. lia.
Qed.

(** The poke of C7 on a whole program: [MOVI R0, 5], then
    [.WORD 0x50 0xFFFF], then [NOP].  The NOP lands at address 1, right
    after the MOVI. *)
Example poke_program_image :
  assemble poke_program 65536
    = Returned (mkResult true EmptyString 0)
        [(0, encMOVI 0 5); (80, 65535); (1, 61440)].
Proof. vm_compute. reflexivity. Qed.

(** The check of the specification: [MOVI R0, 5] then [HALT] leaves 5
    in R0 and the machine halted after exactly two steps. *)
Example movi_halt_runs :
  let w := [(0, encMOVI 0 5); (1, 0)] in
  assemble (unlines ["MOVI R0, 5"; "HALT"]) 65536
    = Returned (mkResult true EmptyString 0) w /\
  halted (state (steps header64k 1 (mkGPRCPU reset (poke ∅ w)))) = false /\
  halted (state (steps header64k 2 (mkGPRCPU reset (poke ∅ w)))) = true /\
  getR (state (steps header64k 2 (mkGPRCPU reset (poke ∅ w)))) 0 = 5.
Proof. cbv zeta. repeat split; vm_compute; reflexivity. Qed.

(* ===================================================================== *)
(** ** Instances *)
(* ===================================================================== *)

Lemma ADD_wraps_and_carries_witness :
  let c := mkGPRCPU (mkCPUState [0; 65535; 1; 0; 0; 0; 0; 0] 0 0 false) ∅ in
  let w := encRR 5 1 2 in
  let c' := execute header64k w c in
  let f' := FLAGS (state c') in
  getR (state c') (decodeRd w) = (65535 + 1) mod 65536 /\
  (flagSet f' (FLAG_CARRY header64k) = true <-> 65535 + 1 > 65535) /\
  (flagSet f' (FLAG_ZERO header64k) = true <-> (65535 + 1) mod 65536 = 0) /\
  (flagSet f' (FLAG_NEGATIVE header64k) = true
   <-> Z.testbit ((65535 + 1) mod 65536) 15 = true).
Proof.
  apply (ADD_wraps_and_carries header64k
           (mkGPRCPU (mkCPUState [0; 65535; 1; 0; 0; 0; 0; 0] 0 0 false) ∅)
           (encRR 5 1 2) 65535 1).
  - reflexivity.
  - reflexivity.
  - unfold is_u16. lia.
  - unfold is_u16. lia.
  - reflexivity.
  - reflexivity.
Defined.

Lemma jump_target_limit_witness :
  exists w, assemble full_then_jump_program 65536
            = Returned (failure JumpTargetTooLarge 2) w.
Proof.
  refine (proj1 (proj2
            (jump_target_limit full_then_jump_program 65536 1 "JMP 600" ∅
               "JMP" "600" [] 600 1 _ _ _ _ _ _ _)) _ _).
  - vm_compute. reflexivity.
  - vm_compute. reflexivity.
  - vm_compute. reflexivity.
  - vm_compute. reflexivity.
  - left. vm_compute. reflexivity.
  - vm_compute. reflexivity.
  - vm_compute. reflexivity.
  - lia.
  - lia.
Defined.


Lemma expanded_JZ_falls_through_witness :
  let c := bootZ header64k [(0, encMOVI 7 2); (1, encRR 14 0 7)] in
  pass2_command {["DONE" := 2]} 65536 1 ["JZ"; "DONE"] 0
    = Go (mkEmit 2 [(0, encMOVI 7 2); (1, encRR 14 0 7)]) /\
  flagSet (FLAGS (state (snd (step header64k c)))) (FLAG_ZERO header64k) = false /\
  PC (state (snd (step header64k (snd (step header64k c))))) = 2.
Proof.
  destruct (expanded_JZ_falls_through header64k {["DONE" := 2]} 65536 1
              "JZ" "DONE" [] 2
              (bootZ header64k [(0, encMOVI 7 2); (1, encRR 14 0 7)]))
    as [Hemit Hrun].
  - reflexivity.
  - vm_compute. reflexivity.
  - vm_compute. reflexivity.
  - lia.
  - simpl. lia.
  - reflexivity.
  - reflexivity.
  - destruct Hrun as (HZ & Hfall & _).
    + intros a v Hin.
      apply elem_of_cons in Hin as [[= -> ->]|Hin]; [vm_compute; reflexivity|].
      apply elem_of_cons in Hin as [[= -> ->]|Hin]; [vm_compute; reflexivity|].
      inversion Hin.
    + split; [exact Hemit|]. split.
      * destruct (flagSet _ _); [|reflexivity].
        destruct HZ as [HZ _]. specialize (HZ eq_refl). discriminate HZ.
      * apply Hfall. discriminate.
Defined.

Lemma forward_label_bound_to_MOVI_witness :
  labelsOf forward_label_program = Some {["DONE" := 2]} /\
  cursorAt {["DONE" := 2]} 65536 (getlines forward_label_program) 2 = Some 3 /\
  getR (state (steps header64k 3
                 (bootZ header64k
                    [(0, encMOVI 7 2); (1, encRR 14 0 7); (2, encMOVI 0 1); (3, 0)])))
       0 = 1.
Proof.
  destruct (forward_label_bound_to_MOVI header64k 65536)
    as (H1 & _ & H2 & _ & _ & _ & _ & H3 & _).
  - simpl. lia.
  - lia.
  - exact (conj H1 (conj H2 H3)).
Defined.

(* ===================================================================== *)
(** ** Further properties of the execution engine *)
(* ===================================================================== *)

Section MoreArithmetic.

Context (h : Header).

Lemma setSubFlags_flags (a b result : Z) (s : CPUState) :
  let f' := FLAGS (setSubFlags h a b result s) in
  flagSet f' (FLAG_ZERO h) = (result =? 0) /\
  flagSet f' (FLAG_NEGATIVE h) = nonzero (Z.land result 32768) /\
  flagSet f' (FLAG_CARRY h) = (b <=? a).
Proof.
  cbv zeta. unfold setSubFlags. cbn [FLAGS setFLAGS].
  exact (flags_after h (FLAGS s) (result =? 0)
           (nonzero (Z.land result 32768)) (b <=? a)).
Qed.

(** X1. Executing a SUB instruction from a state with [R[rd] = a] and
    [R[rs] = b] (16-bit values) leaves [R[rd] = (a - b) mod 65536].
    Afterwards Carry means "no borrow": it is set exactly when [a >= b],
    whatever the sign bit of the result; Zero is set exactly when
    [a = b] and Negative exactly when bit 15 of the wrapped result is
    set. *)
Theorem SUB_wraps_and_borrows (c : GPRCPU) (w a b : Z) :
  wfState (state c) ->
  toOpcode (decodeOpcode w) = SUB ->
  is_u16 a -> is_u16 b ->
  getR (state c) (decodeRd w) = a ->
  getR (state c) (decodeRs w) = b ->
  let c' := execute h w c in
  let f' := FLAGS (state c') in
  getR (state c') (decodeRd w) = (a - b) mod 65536 /\
  (flagSet f' (FLAG_CARRY h) = true <-> a >= b) /\
  (flagSet f' (FLAG_ZERO h) = true <-> a = b) /\
  (flagSet f' (FLAG_NEGATIVE h) = true <-> Z.testbit ((a - b) mod 65536) 15 = true).
Proof.
  intros Hwf Hop Ha Hb HRd HRs. cbv zeta.
  unfold execute. rewrite Hop, HRd, HRs. cbn [state].
  pose proof (setSubFlags_flags a b (u16 (a - b))
                (setR (state c) (decodeRd w) (u16 (a - b)))) as Hf.
  cbv zeta in Hf. destruct Hf as (Hz & Hn & Hc).
  rewrite Hz, Hn, Hc, bit15_test. unfold u16.
  split.
  - change (getR (setR (state c) (decodeRd w) ((a - b) mod 65536)) (decodeRd w)
            = (a - b) mod 65536).
    apply getR_setR_same; [exact Hwf|apply decodeRd_range].
  - unfold is_u16 in Ha, Hb. split; [|split].
    + rewrite Z.leb_le. lia.
    + rewrite Z.eqb_eq. split; intros H.
      * destruct (Z.lt_trichotomy a b) as [Hlt|[Heq|Hgt]]; [|exact Heq|].
        -- replace (a - b) with ((a - b + 65536) + (-1) * 65536) in H by lia.
           rewrite Z.mod_add, Z.mod_small in H by lia. lia.
        -- rewrite Z.mod_small in H by lia. lia.
      * rewrite H, Z.sub_diag. reflexivity.
    + tauto.
Qed.

End MoreArithmetic.

Lemma SUB_wraps_and_borrows_witness :
  let c := mkGPRCPU (mkCPUState [0; 3; 5; 0; 0; 0; 0; 0] 0 0 false) ∅ in
  let c' := execute header64k (encRR 6 1 2) c in
  getR (state c') 1 = (3 - 5) mod 65536 /\
  (flagSet (FLAGS (state c')) (FLAG_CARRY header64k) = true <-> 3 >= 5).
Proof.
  destruct (SUB_wraps_and_borrows header64k
              (mkGPRCPU (mkCPUState [0; 3; 5; 0; 0; 0; 0; 0] 0 0 false) ∅)
              (encRR 6 1 2) 3 5) as (H1 & H2 & _).
  - reflexivity.
  - reflexivity.
  - unfold is_u16. lia.
  - unfold is_u16. lia.
  - reflexivity.
  - reflexivity.
  - exact (conj H1 H2).
Defined.

Section Shifts.

Context (h : Header).

Lemma bit0_test (x : Z) : nonzero (Z.land x 1) = Z.odd x.
Proof. rewrite <- Z.bit0_odd. exact (flagSet_testbit x 0 ltac:(lia)). Qed.

Lemma testbit15_u16 (x : Z) : is_u16 x -> (Z.testbit x 15 = true <-> 32768 <= x).
Proof.
  unfold is_u16. intros Hx. rewrite Z.testbit_true by lia.
  change (2 ^ 15) with 32768. split; intros H; Z.div_mod_to_equations; lia.
Qed.

Lemma wfState_setFLAGS (s : CPUState) (f : Z) : wfState s -> wfState (setFLAGS s f).
Proof. unfold wfState, setFLAGS. cbn [R]. tauto. Qed.

(** What [execute] leaves behind for SHL: the register, the three flags
    and the shape of the register file. *)
Lemma execute_SHL (c : GPRCPU) (w : Z) :
  wfState (state c) ->
  toOpcode (decodeOpcode w) = SHL ->
  let val := getR (state c) (decodeRd w) in
  let c' := execute h w c in
  let f' := FLAGS (state c') in
  wfState (state c') /\
  getR (state c') (decodeRd w) = u16 (Z.shiftl val 1) /\
  flagSet f' (FLAG_CARRY h) = Z.testbit val 15 /\
  flagSet f' (FLAG_ZERO h) = (u16 (Z.shiftl val 1) =? 0) /\
  flagSet f' (FLAG_NEGATIVE h) = Z.testbit (u16 (Z.shiftl val 1)) 15.
Proof.
  intros Hwf Hop. cbv zeta. unfold execute. rewrite Hop. cbn [state].
  set (val := getR (state c) (decodeRd w)).
  set (s1 := setR (state c) (decodeRd w) (u16 (Z.shiftl val 1))).
  assert (getR s1 (decodeRd w) = u16 (Z.shiftl val 1)) as HR
      by (apply getR_setR_same; [exact Hwf|apply decodeRd_range]).
  rewrite HR.
  destruct (flags_after h (FLAGS s1) (u16 (Z.shiftl val 1) =? 0)
              (nonzero (Z.land (u16 (Z.shiftl val 1)) 32768))
              (nonzero (Z.land val 32768))) as (Hz & Hn & Hc).
  cbn [FLAGS setFLAGS]. rewrite Hz, Hn, Hc, !bit15_test.
  split; [apply wfState_setFLAGS, wfState_setR, Hwf|].
  split; [exact HR|]. repeat split; reflexivity.
Qed.

(** The same for SHR. *)
Lemma execute_SHR (c : GPRCPU) (w : Z) :
  wfState (state c) ->
  toOpcode (decodeOpcode w) = SHR ->
  let val := getR (state c) (decodeRd w) in
  let c' := execute h w c in
  let f' := FLAGS (state c') in
  wfState (state c') /\
  getR (state c') (decodeRd w) = Z.shiftr val 1 /\
  flagSet f' (FLAG_CARRY h) = Z.odd val /\
  flagSet f' (FLAG_ZERO h) = (Z.shiftr val 1 =? 0) /\
  flagSet f' (FLAG_NEGATIVE h) = Z.testbit (Z.shiftr val 1) 15.
Proof.
  intros Hwf Hop. cbv zeta. unfold execute. rewrite Hop. cbn [state].
  set (val := getR (state c) (decodeRd w)).
  set (s1 := setR (state c) (decodeRd w) (Z.shiftr val 1)).
  assert (getR s1 (decodeRd w) = Z.shiftr val 1) as HR
      by (apply getR_setR_same; [exact Hwf|apply decodeRd_range]).
  rewrite HR.
  destruct (flags_after h (FLAGS s1) (Z.shiftr val 1 =? 0)
              (nonzero (Z.land (Z.shiftr val 1) 32768))
              (nonzero (Z.land val 1))) as (Hz & Hn & Hc).
  cbn [FLAGS setFLAGS]. rewrite Hz, Hn, Hc, bit15_test, bit0_test.
  split; [apply wfState_setFLAGS, wfState_setR, Hwf|].
  split; [exact HR|]. repeat split; reflexivity.
Qed.

(** X2. SHL leaves [R[rd] = (2 * val) mod 65536] with Carry equal to the
    bit shifted out at the top ([val >= 32768]); SHR leaves
    [R[rd] = val / 2] (a logical shift) with Carry equal to the bit
    shifted out at the bottom ([val] odd) and Negative always clear.  In
    both cases Zero is set exactly when the new register value is 0. *)
Theorem shift_semantics (c : GPRCPU) (w val : Z) :
  wfState (state c) ->
  is_u16 val ->
  getR (state c) (decodeRd w) = val ->
  let c' := execute h w c in
  let f' := FLAGS (state c') in
  (toOpcode (decodeOpcode w) = SHL ->
     getR (state c') (decodeRd w) = (2 * val) mod 65536 /\
     (flagSet f' (FLAG_CARRY h) = true <-> 32768 <= val) /\
     (flagSet f' (FLAG_ZERO h) = true <-> (2 * val) mod 65536 = 0)) /\
  (toOpcode (decodeOpcode w) = SHR ->
     getR (state c') (decodeRd w) = val / 2 /\
     (flagSet f' (FLAG_CARRY h) = true <-> Z.odd val = true) /\
     (flagSet f' (FLAG_ZERO h) = true <-> val / 2 = 0) /\
     flagSet f' (FLAG_NEGATIVE h) = false).
Proof.
  intros Hwf Hval HR. cbv zeta. split; intros Hop.
  - destruct (execute_SHL c w Hwf Hop) as (_ & Hr & Hc & Hz & _).
    rewrite HR in Hr, Hc, Hz. rewrite Hr, Hc, Hz.
    unfold u16. rewrite Z.shiftl_mul_pow2 by lia.
    change (2 ^ 1) with 2. rewrite (Z.mul_comm val 2).
    split; [reflexivity|]. split; [apply testbit15_u16; exact Hval|].
    apply Z.eqb_eq.
  - destruct (execute_SHR c w Hwf Hop) as (_ & Hr & Hc & Hz & Hn).
    rewrite HR in Hr, Hc, Hz, Hn. rewrite Hr, Hc, Hz, Hn.
    rewrite Z.shiftr_div_pow2 by lia. change (2 ^ 1) with 2.
    split; [reflexivity|]. split; [tauto|]. split; [apply Z.eqb_eq|].
    destruct (Z.testbit (val / 2) 15) eqn:E; [|reflexivity].
    apply testbit15_u16 in E.
    + unfold is_u16 in Hval. Z.div_mod_to_equations. lia.
    + unfold is_u16 in *. Z.div_mod_to_equations. lia.
Qed.

(** X3. Shifting left and then right (or right and then left) the same
    register gives the original value back exactly when the first shift
    left Carry clear, that is when the bit it discarded was 0. *)
Theorem shift_roundtrip_iff_no_carry (c : GPRCPU) (w1 w2 val : Z) :
  wfState (state c) ->
  is_u16 val ->
  decodeRd w1 = decodeRd w2 ->
  getR (state c) (decodeRd w1) = val ->
  (toOpcode (decodeOpcode w1) = SHL /\ toOpcode (decodeOpcode w2) = SHR) \/
  (toOpcode (decodeOpcode w1) = SHR /\ toOpcode (decodeOpcode w2) = SHL) ->
  let c1 := execute h w1 c in
  let c2 := execute h w2 c1 in
  getR (state c2) (decodeRd w1) = val
  <-> flagSet (FLAGS (state c1)) (FLAG_CARRY h) = false.
Proof.
  intros Hwf Hval Hrd HR Hops. cbv zeta. unfold is_u16 in Hval.
  destruct Hops as [[Hl Hr]|[Hr Hl]].
  - destruct (execute_SHL c w1 Hwf Hl) as (Hwf1 & Hv1 & Hc1 & _).
    destruct (execute_SHR _ w2 Hwf1 Hr) as (_ & Hv2 & _).
    rewrite <- Hrd in Hv2. rewrite Hv2, Hv1, Hc1, HR.
    unfold u16. rewrite Z.shiftl_mul_pow2, Z.shiftr_div_pow2 by lia.
    change (2 ^ 1) with 2.
    assert (Z.testbit val 15 = false <-> val < 32768) as ->.
    { pose proof (testbit15_u16 val Hval) as Hb.
      destruct (Z.testbit val 15).
      - split; [discriminate|]. intros Hlt.
        destruct Hb as [Hb _]. specialize (Hb eq_refl). lia.
      - split; [|reflexivity]. intros _.
        destruct (Z.lt_ge_cases val 32768) as [Hlt|Hge]; [exact Hlt|].
        destruct Hb as [_ Hb]. specialize (Hb Hge). discriminate Hb. }
    split; intros H; Z.div_mod_to_equations; lia.
  - destruct (execute_SHR c w1 Hwf Hr) as (Hwf1 & Hv1 & Hc1 & _).
    destruct (execute_SHL _ w2 Hwf1 Hl) as (_ & Hv2 & _).
    rewrite <- Hrd in Hv2. rewrite Hv2, Hv1, Hc1, HR.
    unfold u16. rewrite Z.shiftl_mul_pow2, Z.shiftr_div_pow2 by lia.
    change (2 ^ 1) with 2.
    rewrite <- Z.negb_even, negb_false_iff, Z.even_spec.
    split; intros H.
    + exists (val / 2). Z.div_mod_to_equations. lia.
    + destruct H as [k ->]. Z.div_mod_to_equations. lia.
Qed.

End Shifts.

Section ResultFlags.

Context (h : Header).

(** The register write followed by [setResultFlags] on the value read
    back, as MOVI, MOV, LOAD and the bitwise instructions do it. *)
Lemma write_then_result_flags (s : CPUState) (rd v : Z) :
  wfState s -> 0 <= rd < 8 ->
  let s1 := setR s rd v in
  let s2 := setResultFlags h (getR s1 rd) s1 in
  getR s2 rd = v /\
  flagSet (FLAGS s2) (FLAG_CARRY h) = false /\
  (flagSet (FLAGS s2) (FLAG_ZERO h) = true <-> v = 0) /\
  (flagSet (FLAGS s2) (FLAG_NEGATIVE h) = true <-> Z.testbit v 15 = true).
Proof.
  intros Hwf Hrd. cbv zeta.
  rewrite (getR_setR_same s rd v Hwf Hrd).
  destruct (setResultFlags_flags h v (setR s rd v)) as (Hz & Hn & Hc).
  rewrite Hz, Hn, Hc, bit15_test.
  split; [|split; [reflexivity|split; [apply Z.eqb_eq|tauto]]].
  unfold setResultFlags.
  change (getR (setR s rd v) rd = v). apply getR_setR_same; assumption.
Qed.

Lemma lnot_u16 (b : Z) : is_u16 b -> u16 (Z.lnot b) = 65535 - b.
Proof.
  unfold is_u16, u16. intros Hb.
  replace (Z.lnot b) with ((65535 - b) + (-1) * 65536) by (unfold Z.lnot; lia).
  rewrite Z.mod_add by lia. apply Z.mod_small. lia.
Qed.

(** X4. MOVI, MOV, LOAD, AND, OR, XOR and NOT write their result to
    [R[rd]] (the zero-extended 9-bit immediate, [R[rs]], the word the bus
    reads at [R[rs]], the bitwise combination of [R[rd]] and [R[rs]], or
    the 16-bit complement [65535 - R[rs]]) and then set the flags from
    that result alone: Carry is always cleared, Zero is set exactly when
    the result is 0 and Negative exactly when its bit 15 is set. *)
Theorem result_instructions (c : GPRCPU) (w v : Z) :
  wfState (state c) ->
  let s := state c in
  let a := getR s (decodeRd w) in
  let b := getR s (decodeRs w) in
  (toOpcode (decodeOpcode w) = MOVI /\ v = decodeImm9 w) \/
  (toOpcode (decodeOpcode w) = MOV /\ v = b) \/
  (toOpcode (decodeOpcode w) = LOAD /\ v = Bus.read h (memory c) b) \/
  (toOpcode (decodeOpcode w) = AND /\ v = Z.land a b) \/
  (toOpcode (decodeOpcode w) = OR /\ v = Z.lor a b) \/
  (toOpcode (decodeOpcode w) = XOR /\ v = Z.lxor a b) \/
  (toOpcode (decodeOpcode w) = NOT /\ is_u16 b /\ v = 65535 - b) ->
  let c' := execute h w c in
  let f' := FLAGS (state c') in
  getR (state c') (decodeRd w) = v /\
  flagSet f' (FLAG_CARRY h) = false /\
  (flagSet f' (FLAG_ZERO h) = true <-> v = 0) /\
  (flagSet f' (FLAG_NEGATIVE h) = true <-> Z.testbit v 15 = true).
Proof.
  intros Hwf. cbv zeta. pose proof (decodeRd_range w) as Hrd.
  intros [[Hop ->]|[[Hop ->]|[[Hop ->]|[[Hop ->]|[[Hop ->]|[[Hop ->]|(Hop & Hb & ->)]]]]]];
    unfold execute; rewrite Hop; cbn [state];
    try rewrite <- (lnot_u16 _ Hb);
    apply write_then_result_flags; assumption.
Qed.

End ResultFlags.

Lemma result_instructions_witness :
  let c := mkGPRCPU (mkCPUState [0; 12; 10; 0; 0; 0; 0; 0] 0 7 false) ∅ in
  let c' := execute header64k (encRR 7 1 2) c in
  getR (state c') 1 = 8 /\
  flagSet (FLAGS (state c')) (FLAG_CARRY header64k) = false.
Proof.
  destruct (result_instructions header64k
              (mkGPRCPU (mkCPUState [0; 12; 10; 0; 0; 0; 0; 0] 0 7 false) ∅)
              (encRR 7 1 2) 8) as (H1 & H2 & _).
  - reflexivity.
  - right. right. right. left. split; reflexivity.
  - exact (conj H1 H2).
Defined.

Section Frame.

Context (h : Header).

Lemma getR_setR_other (s : CPUState) (i j v : Z) :
  0 <= i -> 0 <= j -> i <> j -> getR (setR s j v) i = getR s i.
Proof.
  intros Hi Hj Hne. unfold getR, setR. cbn [R].
  apply list_lookup_total_insert_ne. lia.
Qed.

(** The register file after [execute]: as before, or with the cell
    [decodeRd] replaced. *)
Lemma R_execute (w : Z) (c : GPRCPU) :
  R (state (execute h w c)) = R (state c) \/
  exists v, R (state (execute h w c)) = <[Z.to_nat (decodeRd w) := v]> (R (state c)).
Proof.
  unfold execute.
  destruct (toOpcode (decodeOpcode w)); cbn [state R setHalted setPC];
    try (left; reflexivity);
    try (right; eexists; reflexivity).
  destruct (nonzero _); left; reflexivity.
Qed.

(** X5. No instruction changes a register other than the one its [rd]
    field names. *)
Theorem other_registers_unchanged (w : Z) (c : GPRCPU) (i : Z) :
  0 <= i -> i <> decodeRd w ->
  getR (state (execute h w c)) i = getR (state c) i.
Proof.
  intros Hi Hne. unfold getR.
  destruct (R_execute w c) as [->|[v ->]]; [reflexivity|].
  apply list_lookup_total_insert_ne.
  pose proof (decodeRd_range w). lia.
Qed.

(** X6. [execute] writes memory only for STORE, and then only through
    the bus at address [R[rs]]: every other cell, and every cell when
    that address is outside the capacity, keeps its content. *)
Theorem memory_written_only_by_STORE (w : Z) (c : GPRCPU) :
  let addr := getR (state c) (decodeRs w) in
  (toOpcode (decodeOpcode w) <> STORE -> memory (execute h w c) = memory c) /\
  (toOpcode (decodeOpcode w) = STORE ->
     memory (execute h w c)
       = Bus.write h (memory c) addr (getR (state c) (decodeRd w)) /\
     (MEMORY_SIZE h <= addr -> memory (execute h w c) = memory c) /\
     (forall a, a <> addr -> memory (execute h w c) !! a = memory c !! a)).
Proof.
  cbv zeta. split.
  - intros Hop. unfold execute.
    destruct (toOpcode (decodeOpcode w)); try reflexivity; try contradiction.
    destruct (nonzero _); reflexivity.
  - intros Hop. unfold execute. rewrite Hop. cbn [memory].
    split; [reflexivity|]. split.
    + intros Hout. apply write_outside. exact Hout.
    + intros a Hne. unfold Bus.write. destruct (_ <? _); [|reflexivity].
      apply lookup_insert_ne. congruence.
Qed.

Lemma flags_other_bits (f : Z) (cz cn cc : bool) (j : Z) :
  0 <= j -> j <> zero_bit h -> j <> carry_bit h -> j <> negative_bit h ->
  Z.testbit (orIf cc (FLAG_CARRY h)
               (orIf cn (FLAG_NEGATIVE h)
                  (orIf cz (FLAG_ZERO h) (clearFlags h f)))) j
  = Z.testbit f j.
Proof.
  intros Hj Hz Hc Hn.
  destruct (flag_bits_nonneg h) as (Hz0 & Hc0 & Hn0).
  unfold FLAG_ZERO, FLAG_CARRY, FLAG_NEGATIVE.
  rewrite !testbit_orIf, testbit_clearFlags by lia.
  repeat match goal with
         | |- context [?a =? j] => destruct (Z.eqb_spec a j); [congruence|]
         end.
  cbn. rewrite !andb_false_r, !orb_false_r, andb_true_r. reflexivity.
Qed.

(** X7. HALT, STORE, JMP, JZ and NOP change neither the registers nor
    the flags register.  No instruction at all changes a bit of the
    flags register other than the Zero, Carry and Negative bits. *)
Theorem flags_frame (w : Z) (c : GPRCPU) :
  (match toOpcode (decodeOpcode w) with
   | HALT | STORE | JMP | JZ | NOP =>
       R (state (execute h w c)) = R (state c) /\
       FLAGS (state (execute h w c)) = FLAGS (state c)
   | _ => True
   end) /\
  (forall j, 0 <= j ->
     j <> zero_bit h -> j <> carry_bit h -> j <> negative_bit h ->
     Z.testbit (FLAGS (state (execute h w c))) j = Z.testbit (FLAGS (state c)) j).
Proof.
  split.
  - unfold execute. destruct (toOpcode (decodeOpcode w)); try exact I;
      try (split; reflexivity).
    destruct (nonzero _); split; reflexivity.
  - intros j Hj Hz Hc Hn. unfold execute.
    destruct (toOpcode (decodeOpcode w));
      cbn [state FLAGS setHalted setPC setResultFlags setAddFlags setSubFlags setFLAGS setR];
      try reflexivity;
      try (apply (flags_other_bits _ _ _ false j); assumption);
      try (apply flags_other_bits; assumption).
    destruct (nonzero _); reflexivity.
Qed.

End Frame.

Lemma other_registers_unchanged_witness :
  getR (state (execute header64k (encMOVI 7 300)
                 (mkGPRCPU (mkCPUState [1; 2; 3; 4; 5; 6; 7; 8] 0 0 false) ∅))) 6
  = 7.
Proof.
  apply (other_registers_unchanged header64k (encMOVI 7 300)
           (mkGPRCPU (mkCPUState [1; 2; 3; 4; 5; 6; 7; 8] 0 0 false) ∅) 6).
  - lia.
  - vm_compute. discriminate.
Defined.

Section StoreLoad.

Context (h : Header).

(** X8. A STORE followed by a LOAD through a register holding the same
    address reads back the value that was stored when the address lies
    inside the capacity.  Outside the capacity the store is dropped and
    the load delivers 0, with the Zero flag set. *)
Theorem store_then_load (c : GPRCPU) (ws wl : Z) :
  wfState (state c) ->
  toOpcode (decodeOpcode ws) = STORE ->
  toOpcode (decodeOpcode wl) = LOAD ->
  getR (state c) (decodeRs wl) = getR (state c) (decodeRs ws) ->
  let addr := getR (state c) (decodeRs ws) in
  let c2 := execute h wl (execute h ws c) in
  (addr < MEMORY_SIZE h ->
     getR (state c2) (decodeRd wl) = getR (state c) (decodeRd ws)) /\
  (MEMORY_SIZE h <= addr ->
     getR (state c2) (decodeRd wl) = 0 /\
     flagSet (FLAGS (state c2)) (FLAG_ZERO h) = true).
Proof.
  intros Hwf Hs Hl Haddr. cbv zeta.
  assert (execute h ws c
          = mkGPRCPU (state c)
              (Bus.write h (memory c) (getR (state c) (decodeRs ws))
                 (getR (state c) (decodeRd ws)))) as ->
      by (unfold execute; rewrite Hs; reflexivity).
  unfold execute. rewrite Hl. cbn [state memory]. rewrite Haddr.
  pose proof (decodeRd_range wl) as Hrd.
  set (v := Bus.read h _ _).
  destruct (write_then_result_flags h (state c) (decodeRd wl) v Hwf Hrd)
    as (Hv & _ & Hz & _).
  rewrite Hv. split.
  - intros Hin. subst v. apply read_write_same. exact Hin.
  - intros Hout. assert (v = 0) as Hv0.
    { subst v. rewrite write_outside by exact Hout.
      apply read_outside. exact Hout. }
    split; [exact Hv0|]. apply Hz. exact Hv0.
Qed.

End StoreLoad.

Lemma store_then_load_witness :
  let c := mkGPRCPU (mkCPUState [0; 77; 256; 0; 0; 0; 0; 0] 0 0 false) ∅ in
  getR (state (execute header64k (encRR 3 4 2) (execute header64k (encRR 4 1 2) c))) 4
  = 77.
Proof.
  refine (proj1 (store_then_load header64k
                   (mkGPRCPU (mkCPUState [0; 77; 256; 0; 0; 0; 0; 0] 0 0 false) ∅)
                   (encRR 4 1 2) (encRR 3 4 2) _ _ _ _) _).
  - reflexivity.
  - reflexivity.
  - reflexivity.
  - reflexivity.
  - vm_compute. reflexivity.
Defined.

Section Halting.

Context (h : Header).

Lemma step_halted (c : GPRCPU) :
  halted (state c) = true -> step h c = (false, c).
Proof. intros Hh. unfold step. rewrite Hh. reflexivity. Qed.

Lemma steps_halted (n : nat) (c : GPRCPU) :
  halted (state c) = true -> steps h n c = c.
Proof.
  intros Hh. induction n as [|n IH]; [reflexivity|].
  cbn [steps]. rewrite step_halted by exact Hh. exact IH.
Qed.

Lemma steps_add (n m : nat) (c : GPRCPU) :
  steps h (n + m) c = steps h m (steps h n c).
Proof.
  revert c. induction n as [|n IH]; intros c; [reflexivity|].
  cbn [Nat.add steps]. apply IH.
Qed.

Lemma fst_step (c : GPRCPU) :
  fst (step h c) = negb (halted (state (snd (step h c)))).
Proof.
  unfold step. destruct (halted (state c)) eqn:Hh; cbn [fst snd].
  - rewrite Hh. reflexivity.
  - reflexivity.
Qed.

(** X9. Halted is terminal: once a machine is halted, any number of
    further calls of [step] returns false and leaves it exactly as it
    is, and [run] returns at once with the cycle count unchanged. *)
Theorem halted_is_terminal (c : GPRCPU) (k : nat) :
  halted (state (steps h k c)) = true ->
  forall m, (k <= m)%nat ->
    steps h m c = steps h k c /\
    step h (steps h m c) = (false, steps h k c) /\
    forall fuel cycles,
      run h (S fuel) cycles (steps h m c) = Some (cycles, steps h k c).
Proof.
  intros Hh m Hm.
  assert (steps h m c = steps h k c) as ->.
  { replace m with (k + (m - k))%nat by lia.
    rewrite steps_add. apply steps_halted. exact Hh. }
  split; [reflexivity|]. split; [apply step_halted; exact Hh|].
  intros fuel cycles. cbn [run]. rewrite step_halted by exact Hh. reflexivity.
Qed.

(** X10. [run] counts the steps that returned true.  If the machine is
    running for its first [k] steps and halted after step [k + 1], then
    [run] with more than [k] units of fuel returns [k] additional cycles
    and the machine after [k + 1] steps; conversely whatever [run]
    returns is a halted machine reached by one step more than the
    cycles it added. *)
Theorem run_counts_steps (c : GPRCPU) :
  (forall k fuel cycles,
     (forall j, (j <= k)%nat -> halted (state (steps h j c)) = false) ->
     halted (state (steps h (S k) c)) = true ->
     (k < fuel)%nat ->
     run h fuel cycles c = Some (cycles + Z.of_nat k, steps h (S k) c)) /\
  (forall fuel cycles n c',
     run h fuel cycles c = Some (n, c') ->
     halted (state c') = true /\
     exists k, n = cycles + Z.of_nat k /\ c' = steps h (S k) c).
Proof.
  split.
  - intros k. revert c. induction k as [|k IH]; intros c fuel cycles Hrun Hhalt Hfuel.
    + destruct fuel as [|fuel]; [lia|]. cbn [run steps] in *.
      destruct (step h c) as [b c1] eqn:E.
      assert (b = negb (halted (state c1))) as ->
          by (pose proof (fst_step c) as F; rewrite E in F; exact F).
      cbn [snd] in Hhalt. rewrite Hhalt. cbn [negb].
      rewrite Z.add_0_r. reflexivity.
    + destruct fuel as [|fuel]; [lia|]. cbn [run].
      destruct (step h c) as [b c1] eqn:E.
      assert (b = negb (halted (state c1))) as ->
          by (pose proof (fst_step c) as F; rewrite E in F; exact F).
      assert (halted (state c1) = false) as Hc1.
      { specialize (Hrun 1%nat ltac:(lia)). cbn [steps] in Hrun.
        rewrite E in Hrun. exact Hrun. }
      rewrite Hc1. cbn [negb].
      rewrite (IH c1 fuel (cycles + 1)).
      * cbn [steps]. rewrite E. cbn [snd]. f_equal. f_equal. lia.
      * intros j Hj. specialize (Hrun (S j) ltac:(lia)).
        cbn [steps] in Hrun. rewrite E in Hrun. exact Hrun.
      * cbn [steps] in Hhalt. rewrite E in Hhalt. exact Hhalt.
      * lia.
  - intros fuel. revert c. induction fuel as [|fuel IH]; intros c cycles n c' Hr.
    + discriminate Hr.
    + cbn [run] in Hr. destruct (step h c) as [b c1] eqn:E.
      assert (b = negb (halted (state c1))) as Hb
          by (pose proof (fst_step c) as F; rewrite E in F; exact F).
      destruct b.
      * apply IH in Hr. destruct Hr as (Hh & k & -> & ->).
        split; [exact Hh|]. exists (S k). split; [lia|].
        cbn [steps]. rewrite E. reflexivity.
      * injection Hr as <- <-. split.
        -- destruct (halted (state c1)); [reflexivity|discriminate Hb].
        -- exists O. split; [lia|]. cbn [steps]. rewrite E. reflexivity.
Qed.

End Halting.

Lemma halted_is_terminal_witness :
  let c := mkGPRCPU reset (poke ∅ [(0, encMOVI 0 5); (1, 0)]) in
  steps header64k 7 c = steps header64k 2 c.
Proof.
  refine (proj1 (halted_is_terminal header64k
                   (mkGPRCPU reset (poke ∅ [(0, encMOVI 0 5); (1, 0)]))
                   2 _ 7%nat _)).
  - vm_compute. reflexivity.
  - lia.
Defined.

Section ProgramCounter.

Context (h : Header).

Lemma execute_PC (w : Z) (c : GPRCPU) :
  PC (state (execute h w c))
  = match toOpcode (decodeOpcode w) with
    | JMP => getR (state c) (decodeRs w)
    | JZ => if flagSet (FLAGS (state c)) (FLAG_ZERO h)
            then getR (state c) (decodeRs w) else PC (state c)
    | _ => PC (state c)
    end.
Proof.
  unfold execute, flagSet.
  destruct (toOpcode (decodeOpcode w)); try reflexivity.
  destruct (nonzero _); reflexivity.
Qed.

(** X11. A step of a running machine leaves PC at [(PC + 1) mod 65536]
    for every instruction, HALT included, except a JMP and a JZ taken
    with the Zero flag set, which leave PC at [R[rs]].  In particular PC
    wraps from 65535 to 0. *)
Theorem pc_after_step (c : GPRCPU) :
  halted (state c) = false ->
  let w := Bus.read h (memory c) (PC (state c)) in
  let pc' := PC (state (snd (step h c))) in
  match toOpcode (decodeOpcode w) with
  | JMP => pc' = getR (state c) (decodeRs w)
  | JZ => pc' = if flagSet (FLAGS (state c)) (FLAG_ZERO h)
                then getR (state c) (decodeRs w)
                else (PC (state c) + 1) mod 65536
  | _ => pc' = (PC (state c) + 1) mod 65536
  end.
Proof.
  intros Hrun. cbv zeta. rewrite step_running by exact Hrun. cbn [snd].
  rewrite execute_PC.
  destruct (toOpcode (decodeOpcode _)); reflexivity.
Qed.

End ProgramCounter.

Lemma pc_after_step_witness :
  PC (state (snd (step header64k
                    (mkGPRCPU (mkCPUState (replicate 8 0) 65535 0 false) ∅))))
  = 0.
Proof.
  exact (pc_after_step header64k
           (mkGPRCPU (mkCPUState (replicate 8 0) 65535 0 false) ∅) eq_refl).
Defined.

(* ===================================================================== *)
(** ** Further properties of the instruction codec *)
(* ===================================================================== *)

Lemma decodeOpcode_range (w : Z) : 0 <= decodeOpcode w < 16.
Proof. rewrite decodeOpcode_div. apply Z.mod_pos_bound. lia. Qed.

Lemma decodeImm9_range (w : Z) : 0 <= decodeImm9 w < 512.
Proof. rewrite decodeImm9_mod. apply Z.mod_pos_bound. lia. Qed.

Lemma encRR_masks (op rd rs : Z) :
  encRR op rd rs = encRR (op mod 16) (rd mod 8) (rs mod 8).
Proof.
  unfold encRR. change 15 with (Z.ones 4). change 7 with (Z.ones 3).
  rewrite !Z.land_ones by lia.
  change (2 ^ 4) with 16. change (2 ^ 3) with 8.
  rewrite !Z.mod_mod by lia. reflexivity.
Qed.

Lemma encMOVI_masks (rd imm9 : Z) :
  encMOVI rd imm9 = encMOVI (rd mod 8) (imm9 mod 512).
Proof.
  unfold encMOVI. change 511 with (Z.ones 9). change 7 with (Z.ones 3).
  rewrite !Z.land_ones by lia.
  change (2 ^ 9) with 512. change (2 ^ 3) with 8.
  rewrite !Z.mod_mod by lia. reflexivity.
Qed.

(** X12. The encoders mask their arguments instead of validating them:
    for arbitrary integers the word built is a 16-bit value whose
    decoded fields are the arguments reduced modulo 16, 8, 8 (register
    form) and modulo 8 and 512 under opcode 1 (immediate form). *)
Theorem encoders_truncate (op rd rs imm9 : Z) :
  (is_u16 (encRR op rd rs) /\
   decodeOpcode (encRR op rd rs) = op mod 16 /\
   decodeRd (encRR op rd rs) = rd mod 8 /\
   decodeRs (encRR op rd rs) = rs mod 8) /\
  (is_u16 (encMOVI rd imm9) /\
   decodeOpcode (encMOVI rd imm9) = 1 /\
   decodeRd (encMOVI rd imm9) = rd mod 8 /\
   decodeImm9 (encMOVI rd imm9) = imm9 mod 512).
Proof.
  pose proof (Z.mod_pos_bound op 16 ltac:(lia)) as Hop.
  pose proof (Z.mod_pos_bound rd 8 ltac:(lia)) as Hrd.
  pose proof (Z.mod_pos_bound rs 8 ltac:(lia)) as Hrs.
  pose proof (Z.mod_pos_bound imm9 512 ltac:(lia)) as Him.
  split.
  - rewrite encRR_masks. split.
    + rewrite encRR_sum by assumption. unfold is_u16. lia.
    + apply decode_encRR; assumption.
  - rewrite encMOVI_masks. split.
    + rewrite encMOVI_sum by assumption. unfold is_u16. lia.
    + apply decode_encMOVI; assumption.
Qed.

(** X13. The decoders accept every integer: the opcode field is always
    in 0..15, both register fields in 0..7 and the immediate in 0..511,
    so [execute] never indexes the register file outside its eight
    cells.  Re-encoding the decoded fields of a 16-bit word gives the
    word back: exactly under opcode 1 in the immediate form, and with
    the six unused low bits cleared in the register form. *)
Theorem decode_total_and_reencode (w : Z) :
  (0 <= decodeOpcode w <= 15 /\ 0 <= decodeRd w <= 7 /\
   0 <= decodeRs w <= 7 /\ 0 <= decodeImm9 w <= 511) /\
  (is_u16 w ->
     encRR (decodeOpcode w) (decodeRd w) (decodeRs w) = w - w mod 64 /\
     (decodeOpcode w = 1 -> encMOVI (decodeRd w) (decodeImm9 w) = w)).
Proof.
  pose proof (decodeOpcode_range w) as Hop.
  pose proof (decodeRd_range w) as Hrd.
  pose proof (decodeRs_range w) as Hrs.
  pose proof (decodeImm9_range w) as Him.
  split; [lia|]. unfold is_u16. intros Hw. split.
  - rewrite encRR_sum by assumption.
    rewrite decodeOpcode_div, decodeRd_div, decodeRs_div.
    Z.div_mod_to_equations. lia.
  - intros H1. rewrite encMOVI_sum by assumption.
    rewrite decodeOpcode_div in H1. rewrite decodeRd_div, decodeImm9_mod.
    Z.div_mod_to_equations. lia.
Qed.

(* ===================================================================== *)
(** ** The expanded unconditional jump *)
(* ===================================================================== *)

Section ExpandedJump.

Context (h : Header).

Lemma execute_JMP (w : Z) (c : GPRCPU) :
  decodeOpcode w = 13 ->
  execute h w c
  = mkGPRCPU (setPC (state c) (getR (state c) (decodeRs w))) (memory c).
Proof. intros Hop. unfold execute. rewrite Hop. reflexivity. Qed.

(** X14. Take a [JMP] line whose target operand [parseReg] answers
    with false (no register, no exception of [std::stoi]) and whose
    target resolves to [target], at most 511, read by the second loop
    with a cursor below [memSize].  The second loop stores
    [MOVI R7, target] at the cursor and [JMP R7] after it.  A running
    CPU that executes the pair from the cursor address arrives at
    [target] after two steps, with the scratch register R7 overwritten
    by [target], Carry cleared and Zero set exactly when [target] is 0:
    such a jump does not preserve R7 or the flags. *)
Theorem expanded_JMP_reaches_target (labels : gmap string Z) (memSize : Z)
    (n : nat) (t0 arg : string) (more : list string) (target : Z)
    (c : GPRCPU) :
  getOpcode (toUpper t0) = 13 ->
  parseReg arg = NotReg ->
  resolve labels arg = Some target ->
  0 <= target <= 511 ->
  PC (state c) < memSize ->
  wfState (state c) ->
  halted (state c) = false ->
  let pc := PC (state c) in
  let pair := [(pc, encMOVI 7 target); (u16 (pc + 1), encRR 13 0 7)] in
  pass2_command labels memSize n (t0 :: arg :: more) pc
    = Go (mkEmit (u16 (u16 (pc + 1) + 1)) pair) /\
  ((forall a v, (a, v) ∈ pair -> Bus.read h (memory c) a = v) ->
   let c2 := snd (step h (snd (step h c))) in
   PC (state c2) = target /\
   getR (state c2) 7 = target /\
   flagSet (FLAGS (state c2)) (FLAG_CARRY h) = false /\
   (flagSet (FLAGS (state c2)) (FLAG_ZERO h) = true <-> target = 0)).
Proof.
  intros Hop Hreg Hres Ht Hpc Hwf Hrun. cbv zeta. split.
  - rewrite (pass2_jump_expansion labels memSize n t0 arg more _ 13 target)
      by (auto; lia).
    destruct (Z.ltb_spec 511 target); [lia|reflexivity].
  - intros Hmem.
    destruct (decode_encMOVI 7 target) as (Hop1 & Hrd1 & Him1); [lia|lia|].
    destruct (decode_encRR 13 0 7) as (Hop2 & _ & Hrs2); [lia|lia|lia|].
    rewrite (step_fetch h c (encMOVI 7 target) Hrun)
      by (apply Hmem; constructor).
    rewrite (execute_MOVI h _ _ Hop1), Hrd1, Him1.
    assert (wfState (state (fetched c))) as Hwf1 by exact Hwf.
    destruct (write_then_result_flags h (state (fetched c)) 7 target Hwf1)
      as (HR7 & HC & HZ & _); [lia|].
    set (s1 := setResultFlags h _ _) in *.
    rewrite (step_fetch h (mkGPRCPU s1 (memory (fetched c))) (encRR 13 0 7));
      [|exact Hrun|cbn [state memory]; apply Hmem; do 2 constructor].
    rewrite (execute_JMP _ _ Hop2), Hrs2.
    cbn [state fetched setPC PC FLAGS getR R memory].
    change (getR s1 7 = target /\ getR s1 7 = target /\
            flagSet (FLAGS s1) (FLAG_CARRY h) = false /\
            (flagSet (FLAGS s1) (FLAG_ZERO h) = true <-> target = 0)).
    auto.
Qed.

End ExpandedJump.

Lemma expanded_JMP_reaches_target_witness :
  let c := mkGPRCPU reset (poke ∅ [(0, encMOVI 7 9); (1, encRR 13 0 7)]) in
  PC (state (snd (step header64k (snd (step header64k c))))) = 9.
Proof.
  destruct (expanded_JMP_reaches_target header64k {["LOOP" := 9]} 65536 1
              "JMP" "LOOP" [] 9
              (mkGPRCPU reset (poke ∅ [(0, encMOVI 7 9); (1, encRR 13 0 7)])))
    as [_ Hrun].
  - reflexivity.
  - vm_compute. reflexivity.
  - vm_compute. reflexivity.
  - lia.
  - simpl. lia.
  - reflexivity.
  - reflexivity.
  - apply Hrun. intros a v Hin.
    apply elem_of_cons in Hin as [[= -> ->]|Hin]; [vm_compute; reflexivity|].
    apply elem_of_cons in Hin as [[= -> ->]|Hin]; [vm_compute; reflexivity|].
    inversion Hin.
Defined.

(* ===================================================================== *)
(** ** Sixteen-bit values are kept *)
(* ===================================================================== *)

Lemma is_u16_bits (x : Z) :
  is_u16 x <-> 0 <= x /\ forall n, 16 <= n -> Z.testbit x n = false.
Proof.
  unfold is_u16. split.
  - intros Hx. split; [lia|]. intros n Hn.
    rewrite <- (Z.mod_small x (2 ^ 16)) by (change (2 ^ 16) with 65536; lia).
    apply Z.mod_pow2_bits_high. lia.
  - intros [H0 Hb]. split; [exact H0|].
    assert (x mod 2 ^ 16 = x) as E.
    { apply Z.bits_inj'. intros n Hn. rewrite Z.testbit_mod_pow2 by lia.
      destruct (Z.ltb_spec n 16); [reflexivity|].
      cbn. symmetry. apply Hb. lia. }
    rewrite <- E. change (2 ^ 16) with 65536.
    apply Z.mod_pos_bound. lia.
Qed.

Lemma is_u16_u16 (x : Z) : is_u16 (u16 x).
Proof. unfold is_u16, u16. apply Z.mod_pos_bound. lia. Qed.

Lemma is_u16_land (a b : Z) : is_u16 a -> is_u16 b -> is_u16 (Z.land a b).
Proof.
  rewrite !is_u16_bits. intros [Ha Hab] [Hb Hbb]. split.
  - apply Z.land_nonneg. left. exact Ha.
  - intros n Hn. rewrite Z.land_spec, Hab by exact Hn. reflexivity.
Qed.

Lemma is_u16_lor (a b : Z) : is_u16 a -> is_u16 b -> is_u16 (Z.lor a b).
Proof.
  rewrite !is_u16_bits. intros [Ha Hab] [Hb Hbb]. split.
  - apply Z.lor_nonneg. split; assumption.
  - intros n Hn. rewrite Z.lor_spec, Hab, Hbb by exact Hn. reflexivity.
Qed.

Lemma is_u16_lxor (a b : Z) : is_u16 a -> is_u16 b -> is_u16 (Z.lxor a b).
Proof.
  rewrite !is_u16_bits. intros [Ha Hab] [Hb Hbb]. split.
  - apply Z.lxor_nonneg. tauto.
  - intros n Hn. rewrite Z.lxor_spec, Hab, Hbb by exact Hn. reflexivity.
Qed.

Lemma is_u16_shiftr (a : Z) : is_u16 a -> is_u16 (Z.shiftr a 1).
Proof.
  unfold is_u16. intros Ha. rewrite Z.shiftr_div_pow2 by lia.
  change (2 ^ 1) with 2. Z.div_mod_to_equations. lia.
Qed.

Section Words.

Context (h : Header).

Lemma is_u16_read (mem : gmap Z Z) (a : Z) :
  wordMemory mem -> is_u16 (Bus.read h mem a).
Proof.
  intros Hm. unfold Bus.read.
  destruct (a <? MEMORY_SIZE h); [|unfold is_u16; lia].
  destruct (mem !! a) as [v|] eqn:E; cbn; [exact (Hm a v E)|unfold is_u16; lia].
Qed.

Lemma wordMemory_write (mem : gmap Z Z) (a v : Z) :
  wordMemory mem -> is_u16 v -> wordMemory (Bus.write h mem a v).
Proof.
  intros Hm Hv. unfold Bus.write. destruct (a <? MEMORY_SIZE h); [|exact Hm].
  intros b x. rewrite lookup_insert. case_decide.
  - intros [= <-]. exact Hv.
  - apply Hm.
Qed.

Lemma is_u16_getR (s : CPUState) (i : Z) :
  wordState s -> 0 <= i < 8 -> is_u16 (getR s i).
Proof.
  intros (Hwf & Hall & _) Hi. unfold getR.
  apply Forall_lookup_total_1; [exact Hall|]. unfold wfState in Hwf. lia.
Qed.

Lemma wordState_setR (s : CPUState) (i v : Z) :
  wordState s -> is_u16 v -> wordState (setR s i v).
Proof.
  intros (Hwf & Hall & Hpc) Hv. split; [apply wfState_setR; exact Hwf|].
  split; [|exact Hpc]. unfold setR. cbn [R]. apply Forall_insert; assumption.
Qed.

Lemma wordState_setFLAGS (s : CPUState) (f : Z) :
  wordState s -> wordState (setFLAGS s f).
Proof. intros H. exact H. Qed.

Lemma wordState_setPC (s : CPUState) (v : Z) :
  wordState s -> is_u16 v -> wordState (setPC s v).
Proof. intros (Hwf & Hall & _) Hv. split; [exact Hwf|]. split; assumption. Qed.

Lemma execute_keeps_words (w : Z) (c : GPRCPU) :
  wordState (state c) -> wordMemory (memory c) ->
  wordState (state (execute h w c)) /\ wordMemory (memory (execute h w c)).
Proof.
  intros Hs Hm.
  pose proof (decodeRd_range w) as Hrd.
  pose proof (decodeRs_range w) as Hrs.
  pose proof (is_u16_getR _ _ Hs Hrd) as Ha.
  pose proof (is_u16_getR _ _ Hs Hrs) as Hb.
  unfold execute.
  destruct (toOpcode (decodeOpcode w)); cbn [state memory];
    try (split; [|exact Hm]).
  - exact Hs.
  - apply wordState_setFLAGS, wordState_setR; [exact Hs|].
    pose proof (decodeImm9_range w). unfold is_u16. lia.
  - apply wordState_setFLAGS, wordState_setR; assumption.
  - apply wordState_setFLAGS, wordState_setR; [exact Hs|].
    apply is_u16_read. exact Hm.
  - split; [exact Hs|]. apply wordMemory_write; assumption.
  - apply wordState_setFLAGS, wordState_setR; [exact Hs|apply is_u16_u16].
  - apply wordState_setFLAGS, wordState_setR; [exact Hs|apply is_u16_u16].
  - apply wordState_setFLAGS, wordState_setR; [exact Hs|].
    apply is_u16_land; assumption.
  - apply wordState_setFLAGS, wordState_setR; [exact Hs|].
    apply is_u16_lor; assumption.
  - apply wordState_setFLAGS, wordState_setR; [exact Hs|].
    apply is_u16_lxor; assumption.
  - apply wordState_setFLAGS, wordState_setR; [exact Hs|apply is_u16_u16].
  - apply wordState_setFLAGS, wordState_setR; [exact Hs|apply is_u16_u16].
  - apply wordState_setFLAGS, wordState_setR; [exact Hs|].
    apply is_u16_shiftr. exact Ha.
  - apply wordState_setPC; assumption.
  - destruct (nonzero _); cbn [state memory]; split; try exact Hm;
      [apply wordState_setPC; assumption|exact Hs].
  - exact Hs.
Qed.


End Words.


(* ===================================================================== *)
(** ** Strings: lines and tokens *)
(* ===================================================================== *)

Lemma sapp_cons (x : ascii) (a b : string) :
  String x a +:+ b = String x (a +:+ b).
Proof. reflexivity. Qed.

Lemma sapp_nil_l (b : string) : EmptyString +:+ b = b.
Proof. reflexivity. Qed.

Lemma sapp_assoc (a b c : string) : (a +:+ b) +:+ c = a +:+ (b +:+ c).
Proof.
  induction a as [|x a IH]; [reflexivity|]. exact (f_equal (String x) IH).
Qed.

Lemma sapp_nil_r (a : string) : a +:+ EmptyString = a.
Proof.
  induction a as [|x a IH]; [reflexivity|]. exact (f_equal (String x) IH).
Qed.

Lemma allChars_app (p : ascii -> bool) (a b : string) :
  allChars p (a +:+ b) = allChars p a && allChars p b.
Proof.
  induction a as [|x a IH]; [reflexivity|].
  rewrite sapp_cons. cbn [allChars]. rewrite IH. apply andb_assoc.
Qed.

Lemma empty_snoc (cur : string) (c : ascii) :
  empty (cur +:+ String c EmptyString) = false.
Proof. destruct cur; reflexivity. Qed.

Lemma empty_true (s : string) : empty s = true -> s = EmptyString.
Proof. destruct s; [reflexivity|discriminate]. Qed.

Lemma tokenize_from_tokens (line cur : string) :
  allChars notSep cur = true ->
  Forall (fun t => t <> EmptyString /\ allChars notSep t = true)
         (tokenize_from line cur).
Proof.
  revert cur. induction line as [|c line IH]; intros cur Hcur; cbn.
  - destruct (empty cur) eqn:E; [constructor|].
    constructor; [|constructor]. split; [|exact Hcur].
    intros ->. discriminate E.
  - destruct (isSep c) eqn:Hc.
    + destruct (empty cur) eqn:E; [apply IH; reflexivity|].
      constructor; [|apply IH; reflexivity]. split; [|exact Hcur].
      intros ->. discriminate E.
    + apply IH. rewrite allChars_app, Hcur. cbn. unfold notSep.
      rewrite Hc. reflexivity.
Qed.

Lemma tokenize_from_joined (line cur : string) :
  joined (tokenize_from line cur) = cur +:+ keepChars notSep line.
Proof.
  revert cur. induction line as [|c line IH]; intros cur; cbn.
  - destruct (empty cur) eqn:E; cbn [joined keepChars].
    + apply empty_true in E. subst cur. reflexivity.
    + reflexivity.
  - unfold notSep at 1. destruct (isSep c) eqn:Hc; cbn [negb].
    + destruct (empty cur) eqn:E; cbn [joined].
      * apply empty_true in E. subst cur. apply IH.
      * rewrite IH. reflexivity.
    + rewrite IH, sapp_assoc. reflexivity.
Qed.

(** X16. [tokenize] never yields an empty token nor a token containing
    a blank, tab, carriage return, newline or comma; and it loses
    nothing else: the tokens put end to end are the line with exactly
    those separator characters removed. *)
Theorem tokenize_tokens (line : string) :
  Forall (fun t => t <> EmptyString /\ allChars notSep t = true) (tokenize line) /\
  joined (tokenize line) = keepChars notSep line.
Proof.
  split.
  - apply tokenize_from_tokens. reflexivity.
  - unfold tokenize. rewrite tokenize_from_joined. reflexivity.
Qed.

Lemma getlines_from_line (l rest cur : string) :
  allChars notNewline l = true ->
  getlines_from (l +:+ nl +:+ rest) cur
  = (cur +:+ l) :: getlines_from rest EmptyString.
Proof.
  revert cur. induction l as [|c l IH]; intros cur Hl.
  - rewrite sapp_nil_l, sapp_nil_r. reflexivity.
  - cbn in Hl. apply andb_true_iff in Hl as [Hc Hl].
    rewrite sapp_cons. cbn [getlines_from]. unfold notNewline in Hc.
    destruct (code c =? 10); [discriminate Hc|].
    rewrite IH by exact Hl. rewrite sapp_assoc. reflexivity.
Qed.

Lemma getlines_from_no_newline (source cur : string) :
  allChars notNewline cur = true ->
  Forall (fun l => allChars notNewline l = true) (getlines_from source cur).
Proof.
  revert cur. induction source as [|c source IH]; intros cur Hcur; cbn.
  - destruct (empty cur); repeat constructor. exact Hcur.
  - destruct (code c =? 10) eqn:Hc.
    + constructor; [exact Hcur|]. apply IH. reflexivity.
    + apply IH. rewrite allChars_app, Hcur. cbn. unfold notNewline.
      rewrite Hc. reflexivity.
Qed.

(** X17. Splitting into lines is the inverse of writing lines out: a
    text made of newline-terminated lines, none of which contains a
    newline itself, is read back by the [std::getline] loop as exactly
    those lines (blank ones included, so line numbers are preserved);
    and no line ever delivered contains a newline. *)
Theorem getlines_unlines (ls : list string) (source : string) :
  (Forall (fun l => allChars notNewline l = true) ls ->
   getlines (unlines ls) = ls) /\
  Forall (fun l => allChars notNewline l = true) (getlines source).
Proof.
  split.
  - intros Hls. unfold getlines. induction Hls as [|l ls Hl Hls IH]; cbn.
    + reflexivity.
    + rewrite getlines_from_line by exact Hl.
      rewrite sapp_nil_l, IH. reflexivity.
  - apply getlines_from_no_newline. reflexivity.
Qed.

Lemma find_semicolon_none (s : string) (i : nat) :
  allChars notSemicolon s = true -> find ";"%char s i = None.
Proof.
  revert i. induction s as [|c s IH]; intros i Hs; [reflexivity|].
  cbn in Hs. apply andb_true_iff in Hs as [Hc Hs]. cbn [find].
  unfold notSemicolon in Hc. destruct (Ascii.eqb c ";"); [discriminate Hc|].
  apply IH. exact Hs.
Qed.

Lemma find_semicolon_app (s rest : string) (i : nat) :
  allChars notSemicolon s = true ->
  find ";"%char (s +:+ String ";"%char rest) i = Some (i + String.length s)%nat.
Proof.
  revert i. induction s as [|c s IH]; intros i Hs.
  - rewrite sapp_nil_l. cbn. rewrite Nat.add_0_r. reflexivity.
  - cbn in Hs. apply andb_true_iff in Hs as [Hc Hs].
    rewrite sapp_cons. cbn [find String.length].
    unfold notSemicolon in Hc. destruct (Ascii.eqb c ";"); [discriminate Hc|].
    rewrite IH by exact Hs. f_equal. lia.
Qed.

Lemma substring_prefix (s t : string) :
  substring 0 (String.length s) (s +:+ t) = s.
Proof.
  induction s as [|c s IH].
  - rewrite sapp_nil_l. destruct t; reflexivity.
  - rewrite sapp_cons. cbn [String.length substring]. rewrite IH. reflexivity.
Qed.

Lemma find_first_not_of_blank (s : string) (i : nat) :
  allChars isBlank s = true -> find_first_not_of s i = None.
Proof.
  revert i. induction s as [|c s IH]; intros i Hs; [reflexivity|].
  cbn in Hs. apply andb_true_iff in Hs as [Hc Hs]. cbn [find_first_not_of].
  rewrite Hc. apply IH. exact Hs.
Qed.

(** X18. Nothing from the first semicolon of a line on has any influence
    on how the line is read: a line and the same line followed by a
    comment are read alike by both loops.  A line made only of blanks,
    tabs, carriage returns and newlines, with or without a comment after
    them, is skipped. *)
Theorem comments_and_blank_lines (s rest : string) :
  allChars notSemicolon s = true ->
  stripComment (s +:+ String ";"%char rest) = stripComment s /\
  readLine (s +:+ String ";"%char rest) = readLine s /\
  (allChars isBlank s = true ->
     readLine s = Skip /\ readLine (s +:+ String ";"%char rest) = Skip).
Proof.
  intros Hs.
  assert (stripComment (s +:+ String ";"%char rest) = stripComment s) as Hstrip.
  { unfold stripComment.
    rewrite find_semicolon_app, find_semicolon_none by exact Hs.
    rewrite Nat.add_0_l, substring_prefix. reflexivity. }
  assert (readLine (s +:+ String ";"%char rest) = readLine s) as Hread
      by (unfold readLine; rewrite Hstrip; reflexivity).
  split; [exact Hstrip|]. split; [exact Hread|].
  intros Hblank. rewrite Hread.
  assert (readLine s = Skip) as ->; [|split; reflexivity].
  unfold readLine, stripComment. rewrite find_semicolon_none by exact Hs.
  unfold trim. rewrite find_first_not_of_blank by exact Hblank. reflexivity.
Qed.

Lemma comments_and_blank_lines_witness :
  readLine "MOVI R0, 5 ; load five" = readLine "MOVI R0, 5 ".
Proof.
  refine (proj1 (proj2 (comments_and_blank_lines "MOVI R0, 5 " " load five" _))).
  reflexivity.
Defined.

(* ===================================================================== *)
(** ** Operands *)
(* ===================================================================== *)

(** X19. Whatever [parseNumber] returns fits in 16 bits, and a register
    number delivered by [parseReg] is always one of 0..7, so the
    assembler never hands an out-of-range field to the encoders on its
    register paths.  An empty operand makes [parseNumber] throw. *)
Theorem operands_in_range (s : string) :
  (forall v, parseNumber s = Some v -> is_u16 v) /\
  (forall r, parseReg s = IsReg r -> 0 <= r <= 7) /\
  parseNumber EmptyString = None.
Proof.
  split; [|split; [|reflexivity]].
  - intros v. unfold parseNumber. destruct (stoul s) as [x|]; [|discriminate].
    intros [= <-]. change 65535 with (Z.ones 16).
    rewrite Z.land_ones by lia. unfold is_u16.
    change (2 ^ 16) with 65536. apply Z.mod_pos_bound. lia.
  - intros r. unfold parseReg.
    destruct (_ || _); [discriminate|].
    destruct (stoi _) as [n|]; [|discriminate].
    destruct (Z.ltb_spec n 0); [discriminate|].
    destruct (Z.ltb_spec 7 n); [discriminate|].
    cbn. intros [= <-]. lia.
Qed.

Lemma back_snoc (s : string) (c : ascii) :
  back (s +:+ String c EmptyString) = Some c.
Proof.
  induction s as [|x s IH]; [reflexivity|].
  rewrite sapp_cons. cbn [back]. rewrite IH.
  destruct (s +:+ String c EmptyString) eqn:E; [|reflexivity].
  destruct s; discriminate E.
Qed.

Lemma length_sapp (a b : string) :
  String.length (a +:+ b) = (String.length a + String.length b)%nat.
Proof.
  induction a as [|x a IH]; [reflexivity|].
  rewrite sapp_cons. cbn [String.length]. rewrite IH. reflexivity.
Qed.

Lemma length_substring_le (k m : nat) (u : string) :
  (String.length (substring k m u) <= m)%nat.
Proof.
  revert k m. induction u as [|x u IH]; intros k m.
  - destruct k, m; cbn; lia.
  - destruct k as [|k].
    + destruct m as [|m]; cbn [substring String.length]; [lia|].
      specialize (IH 0%nat m). lia.
    + cbn [substring]. apply IH.
Qed.

(** Any fuel of at least the length of [t] lets the loop of [parseReg]
    run to its end. *)
Lemma peel_fuel (n m : nat) (t : string) :
  (String.length t <= n)%nat -> (String.length t <= m)%nat ->
  peel n t = peel m t.
Proof.
  revert m t. induction n as [|n IH]; intros m t Hn Hm.
  - destruct t; [|cbn in Hn; lia]. destruct m; reflexivity.
  - destruct m as [|m].
    + destruct t; [reflexivity|cbn in Hm; lia].
    + cbn [peel].
      destruct (2 <=? String.length t)%nat eqn:E; cbn [andb]; [|reflexivity].
      apply Nat.leb_le in E.
      destruct (frontIs t 40 && backIs t 41); [|reflexivity].
      pose proof (length_substring_le 1 (String.length t - 2) t).
      apply IH; lia.
Qed.

Lemma peel_enough (n : nat) (t : string) :
  (String.length t <= n)%nat -> peel n t = peel (String.length t) t.
Proof. intros Hn. apply peel_fuel; [exact Hn|lia]. Qed.

(** X20. Parentheses around an operand are cosmetic, to any depth:
    [parseReg] gives the same answer for [(s)] as for [s], so [(R3)]
    and [((R3))] name register 3 just as [R3] does. *)
Theorem parentheses_are_cosmetic (s : string) :
  parseReg (String "("%char (s +:+ ")")) = parseReg s.
Proof.
  unfold parseReg.
  set (t := String "("%char (s +:+ ")")).
  assert (String.length t = S (S (String.length s))) as Hlen
      by (subst t; cbn [String.length]; rewrite length_sapp; cbn; lia).
  assert (frontIs t 40 = true) as Hfront by reflexivity.
  assert (backIs t 41 = true) as Hback.
  { unfold backIs. subst t.
    change (String "("%char (s +:+ ")"))
      with (String "("%char s +:+ String ")"%char EmptyString).
    rewrite back_snoc. reflexivity. }
  assert (substring 1 (String.length t - 2) t = s) as Hsub.
  { rewrite Hlen.
    replace (S (S (String.length s)) - 2)%nat with (String.length s) by lia.
    subst t. cbn [substring].
    change (substring 0 (String.length s) (s +:+ String ")"%char EmptyString) = s).
    apply substring_prefix. }
  assert (peel (String.length t) t = peel (String.length s) s) as ->;
    [|reflexivity].
  transitivity (peel (S (String.length s)) s).
  - rewrite Hlen at 1.
    change (peel (S (S (String.length s))) t)
      with (if (2 <=? String.length t)%nat && frontIs t 40 && backIs t 41
            then peel (S (String.length s)) (substring 1 (String.length t - 2) t)
            else t).
    rewrite Hfront, Hback, Hsub, Hlen. reflexivity.
  - apply peel_fuel; lia.
Qed.

(* ===================================================================== *)
(** ** How the two loops move through a program *)
(* ===================================================================== *)

Ltac case_compare :=
  repeat match goal with
         | |- context [Z.eqb ?a ?b] => destruct (Z.eqb_spec a b)
         | |- context [Z.ltb ?a ?b] => destruct (Z.ltb_spec a b)
         | |- context [Z.leb ?a ?b] => destruct (Z.leb_spec a b)
         end.

(** One line, read by both loops with the same counter: when both go
    on, the cursor of the second loop is the counter of the first,
    except on a line that expands, where it is one word further. *)
Lemma line_cursor_vs_counter (labels lbls lbls1 : gmap string Z) (memSize : Z)
    (n : nat) (line : string) (pc pc1 : Z) (e : Emit) :
  pass1_line n line (pc, lbls) = Go (pc1, lbls1) ->
  pass2_line labels memSize n line pc = Go e ->
  cursor e = if expands line then u16 (pc1 + 1) else pc1.
Proof.
  unfold expands, pass1_line, pass2_line.
  destruct (readLine line) as [|name|tok].
  - intros [= <- <-] [= <-]. reflexivity.
  - destruct (empty name); intros [= <- <-] [= <-]; reflexivity.
  - destruct (pass1_command n tok pc) as [pc'| |] eqn:E1; try discriminate.
    intros [= -> <-]. revert E1.
    unfold pass1_command, pass2_command, emit.
    destruct tok as [|t0 more]; cbn [hd].
    + cbn. discriminate.
    + set (cmd := toUpper t0).
      destruct (String.eqb_spec cmd ".ORG") as [Eorg|Norg].
      { rewrite Eorg. change (getOpcode ".ORG") with (-1).
        destruct more as [|t1 more]; [discriminate|].
        destruct (parseNumber t1); [|discriminate].
        intros [= <-] [= <-]. reflexivity. }
      destruct (String.eqb_spec cmd ".WORD") as [Eword|Nword].
      { rewrite Eword. change (getOpcode ".WORD") with (-1).
        destruct more as [|t1 [|t2 more]]; [discriminate| |].
        - destruct (parseNumber t1); [|discriminate].
          intros [= <-] [= <-]. reflexivity.
        - destruct (parseNumber t1); [|discriminate].
          destruct (parseNumber t2); [|discriminate].
          intros [= <-] [= <-]. reflexivity. }
      generalize (getOpcode cmd). intros op.
      destruct (Z.leb_spec 0 op); [|discriminate]. intros [= <-].
      destruct more as [|t1 more].
      * case_compare; try lia; cbn; intros [= <-]; reflexivity.
      * destruct (parseReg t1) as [r| |];
          case_compare; try lia; cbn;
          try discriminate;
          try (intros [= <-]; reflexivity);
          repeat match goal with
                 | |- context [match ?x with _ => _ end] => destruct x
                 end;
          try discriminate; case_compare; try lia;
          try discriminate;
          intros [= <-]; reflexivity.
Qed.

Lemma pass1_app (pre rest : list string) (n : nat) (st : Z * gmap string Z) :
  pass1 (pre ++ rest) n st =
    match pass1 pre n st with
    | Go st' => pass1 rest (n + length pre)%nat st'
    | r => r
    end.
Proof.
  revert n st. induction pre as [|line pre IH]; intros n st; cbn.
  - rewrite Nat.add_0_r. reflexivity.
  - destruct (pass1_line (S n) line st); try reflexivity.
    rewrite IH. rewrite Nat.add_succ_comm. reflexivity.
Qed.

Lemma loops_agree (labels : gmap string Z) (memSize : Z) (lines : list string)
    (n : nat) (st st' : Emit) (lbls lbls1 : gmap string Z) (pc1 : Z) :
  Forall (fun l => expands l = false) lines ->
  pass1 lines n (cursor st, lbls) = Go (pc1, lbls1) ->
  pass2 labels memSize lines n st = (st', Done) ->
  cursor st' = pc1.
Proof.
  intros Hno. revert n st lbls.
  induction Hno as [|line lines Hline Hno IH]; intros n st lbls; cbn [pass1 pass2].
  - intros [= <- _] [= <-]. reflexivity.
  - destruct (pass1_line (S n) line (cursor st, lbls)) as [[pc' lbls']| |] eqn:E1;
      try discriminate.
    destruct (pass2_line labels memSize (S n) line (cursor st)) as [e| |] eqn:E2;
      try discriminate.
    pose proof (line_cursor_vs_counter _ _ _ _ _ _ _ _ _ E1 E2) as Hc.
    rewrite Hline in Hc. intros H1 H2.
    apply (IH (S n) (mkEmit (cursor e) (stores st ++ stores e)) lbls');
      [cbn [cursor]; rewrite Hc; exact H1|exact H2].
Qed.

(** X21. Where no earlier line is a jump to a non-register target, the
    two loops agree: a label declared on line [k + 1] is bound by the
    first loop to exactly the address at which the second loop, when it
    reaches that line, will place the next word. *)
Theorem label_bound_to_cursor (source : string) (memSize : Z)
    (labels lbls : gmap string Z) (k : nat) (line name : string) (pc pc2 : Z) :
  let lines := getlines source in
  Forall (fun l => expands l = false) (take k lines) ->
  lines !! k = Some line ->
  readLine line = Label name ->
  name <> EmptyString ->
  pass1 (take k lines) 0 (0, ∅) = Go (pc, lbls) ->
  cursorAt labels memSize lines k = Some pc2 ->
  pass1 (take (S k) lines) 0 (0, ∅) = Go (pc, <[toUpper name := pc]> lbls) /\
  pc2 = pc.
Proof.
  cbv zeta. intros Hno Hline Hread Hname Hp1 Hcur. split.
  - rewrite (take_S_r _ _ _ Hline), pass1_app, Hp1. cbn [pass1].
    unfold pass1_line. rewrite Hread.
    destruct name; [contradiction|reflexivity].
  - destruct (cursorAt_prefix _ _ _ _ _ Hcur) as [w Hw].
    exact (loops_agree labels memSize _ 0 (mkEmit 0 []) _ ∅ lbls pc Hno Hp1 Hw).
Qed.


Lemma parseNumber_u16 (s : string) (v : Z) : parseNumber s = Some v -> is_u16 v.
Proof.
  unfold parseNumber. destruct (stoul s) as [x|]; [|discriminate].
  intros [= <-]. change 65535 with (Z.ones 16).
  rewrite Z.land_ones by lia. unfold is_u16.
  change (2 ^ 16) with 65536. apply Z.mod_pos_bound. lia.
Qed.

Lemma is_u16_encRR (op rd rs : Z) : is_u16 (encRR op rd rs).
Proof. apply is_u16_u16. Qed.

Lemma is_u16_encMOVI (rd imm9 : Z) : is_u16 (encMOVI rd imm9).
Proof. apply is_u16_u16. Qed.

Ltac stores_ok :=
  repeat (constructor;
          [split; cbn [fst snd];
           [lia
           |first [assumption | apply is_u16_u16
                  | eapply parseNumber_u16; eassumption]]
          |]);
  try constructor.

Lemma line_stores_ok (labels : gmap string Z) (memSize : Z) (n : nat)
    (line : string) (pc : Z) (e : Emit) :
  is_u16 pc ->
  expands line = false ->
  pass2_line labels memSize n line pc = Go e ->
  is_u16 (cursor e) /\ Forall (storeOk memSize) (stores e).
Proof.
  intros Hpc. unfold expands, pass2_line.
  destruct (readLine line) as [|name|tok].
  - intros _ [= <-]. split; [exact Hpc|constructor].
  - intros _ [= <-]. split; [exact Hpc|constructor].
  - unfold pass2_command, emit.
    assert (is_u16 0) as H0 by (unfold is_u16; lia).
    assert (is_u16 61440) as H1 by (unfold is_u16; lia).
    assert (0 <= pc) as Hpc0 by (unfold is_u16 in Hpc; lia).
    destruct tok as [|t0 more]; cbn [hd].
    + cbn. discriminate.
    + set (cmd := toUpper t0).
      destruct (String.eqb_spec cmd ".ORG") as [Eorg|Norg].
      { intros _. destruct more as [|t1 more].
        - intros [= <-]. split; [exact Hpc|constructor].
        - destruct (parseNumber t1) as [v|] eqn:Ev; [|discriminate].
          intros [= <-]. split; [exact (parseNumber_u16 _ _ Ev)|constructor]. }
      destruct (String.eqb_spec cmd ".WORD") as [Eword|Nword].
      { intros _. destruct more as [|t1 [|t2 more]].
        - intros [= <-]. split; [exact Hpc|constructor].
        - destruct (parseNumber t1) as [v|] eqn:Ev; [|discriminate].
          intros [= <-]. split; [apply is_u16_u16|].
          destruct (Z.ltb_spec pc memSize); stores_ok.
        - destruct (parseNumber t1) as [a|] eqn:Ea; [|discriminate].
          destruct (parseNumber t2) as [v|] eqn:Ev; [|discriminate].
          intros [= <-]. split; [exact Hpc|].
          pose proof (parseNumber_u16 _ _ Ea) as Ha'. unfold is_u16 in Ha'.
          destruct (Z.ltb_spec a memSize); stores_ok. }
      generalize (getOpcode cmd). intros op.
      destruct more as [|t1 more].
      * intros _. case_compare; try lia; cbn; try discriminate;
          intros [= <-]; (split; [apply is_u16_u16|]); stores_ok.
      * destruct (parseReg t1) as [r| |];
          case_compare; try lia; cbn;
          try discriminate;
          repeat match goal with
                 | |- context [match ?x with _ => _ end] => destruct x
                 end;
          try discriminate; case_compare; try lia;
          try discriminate;
          intros _ [= <-]; (split; [apply is_u16_u16|]); stores_ok.
Qed.

Lemma pass2_stores_ok (labels : gmap string Z) (memSize : Z)
    (lines : list string) (n : nat) (st st' : Emit) (ex : Exit) :
  Forall (fun l => expands l = false) lines ->
  is_u16 (cursor st) ->
  Forall (storeOk memSize) (stores st) ->
  pass2 labels memSize lines n st = (st', ex) ->
  Forall (storeOk memSize) (stores st').
Proof.
  intros Hno. revert n st.
  induction Hno as [|line lines Hline Hno IH]; intros n st Hpc Hst; cbn [pass2].
  - intros [= <- _]. exact Hst.
  - destruct (pass2_line labels memSize (S n) line (cursor st)) as [e| |] eqn:E.
    + destruct (line_stores_ok _ _ _ _ _ _ Hpc Hline E) as [Hc He].
      apply IH; [exact Hc|]. cbn [stores]. apply Forall_app. split; assumption.
    + intros [= <- _]. exact Hst.
    + intros [= <- _]. exact Hst.
Qed.

(** X23. In a program without a jump to a non-register target, every
    store that [assemble] performs, whether it then returns success, an
    error, or is left by an exception, goes to an index inside
    [0, memSize) and writes a 16-bit value: the capacity check and the
    guards of [.WORD] keep all single-word stores inside the buffer. *)
Theorem stores_stay_in_buffer (source : string) (memSize : Z) :
  Forall (fun l => expands l = false) (getlines source) ->
  match assemble source memSize with
  | Returned _ w | Thrown w => Forall (storeOk memSize) w
  end.
Proof.
  intros Hno. unfold assemble.
  destruct (pass1 (getlines source) 0 (0, ∅)) as [[pc labels]| |];
    try constructor.
  destruct (pass2 labels memSize (getlines source) 0 (mkEmit 0 [])) as [st' ex] eqn:E.
  assert (Forall (storeOk memSize) (stores st')) as Hok.
  { apply (pass2_stores_ok _ _ _ _ _ _ _ Hno) in E; [exact E| |constructor].
    unfold is_u16. cbn. lia. }
  destruct ex; exact Hok.
Qed.

Lemma stores_stay_in_buffer_witness :
  match assemble poke_program 65536 with
  | Returned _ w | Thrown w => Forall (storeOk 65536) w
  end.
Proof.
  apply stores_stay_in_buffer.
  assert (getlines poke_program
          = ["MOVI R0, 5"; ".WORD 0x50 0xFFFF"; "NOP"]) as ->
      by (vm_compute; reflexivity).
  repeat (constructor; [vm_compute; reflexivity|]). constructor.
Defined.

(* ===================================================================== *)
(** ** Error results *)
(* ===================================================================== *)

Lemma pass1_command_fail (n : nat) (tok : list string) (pc : Z)
    (res : AssembleResult) :
  pass1_command n tok pc = Fail res -> ok res = false /\ lineNum res = n.
Proof.
  unfold pass1_command.
  repeat match goal with
         | |- context [match ?x with _ => _ end] => destruct x
         end;
    intros E; try discriminate E; injection E as <-; split; reflexivity.
Qed.

Lemma pass1_line_fail (n : nat) (line : string) (st : Z * gmap string Z)
    (res : AssembleResult) :
  pass1_line n line st = Fail res -> ok res = false /\ lineNum res = n.
Proof.
  unfold pass1_line. destruct st as [pc lbls].
  destruct (readLine line) as [|name|tok]; try discriminate.
  - destruct (empty name); discriminate.
  - destruct (pass1_command n tok pc) eqn:E; try discriminate.
    intros [= <-]. exact (pass1_command_fail _ _ _ _ E).
Qed.

Lemma pass2_line_fail (labels : gmap string Z) (memSize : Z) (n : nat)
    (line : string) (pc : Z) (res : AssembleResult) :
  pass2_line labels memSize n line pc = Fail res ->
  ok res = false /\ lineNum res = n.
Proof.
  unfold pass2_line, pass2_command, emit.
  repeat match goal with
         | |- context [match ?x with _ => _ end] => destruct x
         end;
    intros E; try discriminate E; injection E as <-; split; reflexivity.
Qed.

Lemma pass1_fail_range (lines : list string) (n : nat)
    (st : Z * gmap string Z) (res : AssembleResult) :
  pass1 lines n st = Fail res ->
  ok res = false /\ (n < lineNum res <= n + length lines)%nat.
Proof.
  revert n st. induction lines as [|line lines IH]; intros n st; cbn [pass1].
  - discriminate.
  - destruct (pass1_line (S n) line st) as [st'| |] eqn:E.
    + intros H. apply IH in H. cbn [length]. split; [tauto|lia].
    + intros [= <-]. apply pass1_line_fail in E. cbn [length].
      split; [tauto|lia].
    + discriminate.
Qed.

Lemma pass2_fail_range (labels : gmap string Z) (memSize : Z)
    (lines : list string) (n : nat) (st st' : Emit) (res : AssembleResult) :
  pass2 labels memSize lines n st = (st', Error res) ->
  ok res = false /\ (n < lineNum res <= n + length lines)%nat.
Proof.
  revert n st. induction lines as [|line lines IH]; intros n st; cbn [pass2].
  - discriminate.
  - destruct (pass2_line labels memSize (S n) line (cursor st)) as [e| |] eqn:E.
    + intros H. apply IH in H. cbn [length]. split; [tauto|lia].
    + intros [= _ <-]. apply pass2_line_fail in E. cbn [length].
      split; [tauto|lia].
    + discriminate.
Qed.

(** X24. What [assemble] returns is either the success value (ok, empty
    message, line number 0) or an error whose line number is the 1-based
    number of a line of the source: at least 1 and at most the number of
    lines read.  An error found by the first loop comes with no store at
    all. *)
Theorem result_names_a_source_line (source : string) (memSize : Z)
    (res : AssembleResult) (w : list (Z * Z)) :
  assemble source memSize = Returned res w ->
  (res = mkResult true EmptyString 0) \/
  (ok res = false /\
   (1 <= lineNum res <= length (getlines source))%nat /\
   (forall res', pass1 (getlines source) 0 (0, ∅) = Fail res' -> w = [])).
Proof.
  unfold assemble.
  destruct (pass1 (getlines source) 0 (0, ∅)) as [[pc labels]|res1|] eqn:E1.
  - destruct (pass2 labels memSize (getlines source) 0 (mkEmit 0 []))
      as [st' [|res2|]] eqn:E2; cbn [outcome].
    + intros [= <- _]. left. reflexivity.
    + intros [= <- _]. right. apply pass2_fail_range in E2.
      split; [tauto|]. split; [lia|]. intros res'. discriminate.
    + discriminate.
  - intros [= <- <-]. right. apply pass1_fail_range in E1.
    split; [tauto|]. split; [lia|]. reflexivity.
  - discriminate.
Qed.

Lemma result_names_a_source_line_witness :
  (1 <= lineNum (failure ProgramTooLarge 2)
     <= length (getlines full_then_jump_program))%nat.
Proof.
  destruct (result_names_a_source_line full_then_jump_program 1
              (failure ProgramTooLarge 2) [(0, 61440)])
    as [H|(_ & H & _)].
  - vm_compute. reflexivity.
  - discriminate H.
  - exact H.
Defined.

(** X25. An unknown mnemonic anywhere in the source makes the whole
    assembly fail before anything is written: if the first loop gets as
    far as line [k + 1] and the first token of that line, in upper case,
    is neither a directive nor one of the sixteen mnemonics, [assemble]
    returns the error "Unknown: " followed by that token, with that
    line's number, and no store has been made, however many valid lines
    precede it. *)
Theorem unknown_mnemonic_writes_nothing (source : string) (memSize : Z)
    (k : nat) (line t0 : string) (more : list string)
    (st : Z * gmap string Z) :
  getlines source !! k = Some line ->
  readLine line = Command (t0 :: more) ->
  toUpper t0 <> ".ORG" ->
  toUpper t0 <> ".WORD" ->
  getOpcode (toUpper t0) < 0 ->
  pass1 (take k (getlines source)) 0 (0, ∅) = Go st ->
  assemble source memSize
    = Returned (failure ("Unknown: " +:+ toUpper t0) (S k)) [].
Proof.
  intros Hline Hread Horg Hword Hop Hpre. unfold assemble.
  rewrite <- (take_drop_middle (getlines source) k line Hline).
  rewrite pass1_app, Hpre.
  rewrite length_take_le by (apply lookup_lt_Some in Hline; lia).
  cbn [pass1 Nat.add]. unfold pass1_line. destruct st as [pc lbls].
  rewrite Hread. unfold pass1_command. cbn [hd].
  destruct (String.eqb_spec (toUpper t0) ".ORG"); [contradiction|].
  destruct (String.eqb_spec (toUpper t0) ".WORD"); [contradiction|].
  destruct (Z.leb_spec 0 (getOpcode (toUpper t0))); [lia|]. reflexivity.
Qed.

Lemma unknown_mnemonic_writes_nothing_witness :
  assemble (unlines ["MOVI R0, 5"; "MOVE R1, R0"; "HALT"]) 65536
  = Returned (failure "Unknown: MOVE" 2) [].
Proof.
  apply (unknown_mnemonic_writes_nothing
           (unlines ["MOVI R0, 5"; "MOVE R1, R0"; "HALT"]) 65536 1
           "MOVE R1, R0" "MOVE" ["R1"; "R0"] (1, ∅)).
  - vm_compute. reflexivity.
  - vm_compute. reflexivity.
  - vm_compute. discriminate.
  - vm_compute. discriminate.
  - vm_compute. reflexivity.
  - vm_compute. reflexivity.
Defined.

(* ===================================================================== *)
(** ** Assembled instructions on the engine *)
(* ===================================================================== *)

Lemma parseReg_range (s : string) (r : Z) : parseReg s = IsReg r -> 0 <= r <= 7.
Proof.
  unfold parseReg.
  destruct (_ || _); [discriminate|].
  destruct (stoi _) as [n|]; [|discriminate].
  destruct (Z.ltb_spec n 0); [discriminate|].
  destruct (Z.ltb_spec 7 n); [discriminate|].
  cbn. intros [= <-]. lia.
Qed.

Section Assembled.

Context (h : Header).

(** X26. [MOVI Rd, X] end to end: the word the second loop stores for
    the line, executed by the engine, leaves in [R[rd]] the low nine
    bits of the resolved operand (a label's address or a literal),
    [X mod 512], and nothing of the higher bits. *)
Theorem assembled_MOVI_keeps_nine_bits (labels : gmap string Z) (memSize : Z)
    (n : nat) (t0 t1 immStr : string) (more : list string) (pc rd imm : Z)
    (c : GPRCPU) :
  getOpcode (toUpper t0) = 1 ->
  parseReg t1 = IsReg rd ->
  resolve labels immStr = Some imm ->
  pc < memSize ->
  wfState (state c) ->
  exists word,
    pass2_command labels memSize n (t0 :: t1 :: immStr :: more) pc
      = Go (mkEmit (u16 (pc + 1)) [(pc, word)]) /\
    getR (state (execute h word c)) rd = imm mod 512.
Proof.
  intros Hop Hreg Himm Hpc Hwf.
  exists (encMOVI rd (Z.land imm 511)). split.
  - rewrite (pass2_MOVI _ _ _ _ _ _ _ _ rd imm Hop Hpc Hreg Himm). reflexivity.
  - pose proof (parseReg_range _ _ Hreg) as Hrd.
    assert (Z.land imm 511 = imm mod 512) as ->.
    { change 511 with (Z.ones 9). rewrite Z.land_ones by lia. reflexivity. }
    pose proof (Z.mod_pos_bound imm 512 ltac:(lia)) as Hm.
    destruct (decode_encMOVI rd (imm mod 512)) as (H1 & H2 & H3); [lia|lia|].
    rewrite execute_MOVI by exact H1. rewrite H2, H3. cbn [state].
    destruct (write_then_result_flags h (state c) rd (imm mod 512) Hwf)
      as [Hv _]; [lia|exact Hv].
Qed.

(** X27. NOT, SHL and SHR take their source from the destination: the
    second loop encodes them with [rs = rd] and never looks at a further
    operand.  So the word stored for [NOT Rd, <anything>], executed by
    the engine, replaces [R[rd]] by its own 16-bit complement. *)
Theorem assembled_NOT_complements_destination (labels : gmap string Z)
    (memSize : Z) (n : nat) (t0 t1 : string) (more : list string)
    (pc rd : Z) (c : GPRCPU) :
  getOpcode (toUpper t0) = 10 ->
  parseReg t1 = IsReg rd ->
  pc < memSize ->
  wfState (state c) ->
  is_u16 (getR (state c) rd) ->
  pass2_command labels memSize n (t0 :: t1 :: more) pc
    = Go (mkEmit (u16 (pc + 1)) [(pc, encRR 10 rd rd)]) /\
  getR (state (execute h (encRR 10 rd rd) c)) rd = 65535 - getR (state c) rd.
Proof.
  intros Hop Hreg Hpc Hwf Hval.
  pose proof (parseReg_range _ _ Hreg) as Hrd. split.
  - unfold pass2_command. cbn [hd].
    destruct (mnemonic_not_directive (toUpper t0)) as [-> ->]; [lia|].
    rewrite Hop, Hreg.
    destruct (Z.leb_spec memSize pc); [lia|reflexivity].
  - destruct (decode_encRR 10 rd rd) as (H1 & H2 & H3); [lia|lia|lia|].
    unfold execute. rewrite H1, H2, H3. cbn [toOpcode state].
    rewrite (lnot_u16 _ Hval).
    destruct (write_then_result_flags h (state c) rd
                (65535 - getR (state c) rd) Hwf) as [Hv _]; [lia|exact Hv].
Qed.

End Assembled.

Lemma assembled_MOVI_keeps_nine_bits_witness :
  exists word,
    pass2_command ∅ 65536 1 ["MOVI"; "R2"; "0x3FF"] 0
      = Go (mkEmit (u16 (0 + 1)) [(0, word)]) /\
    getR (state (execute header64k word (mkGPRCPU reset ∅))) 2 = 1023 mod 512.
Proof.
  apply (assembled_MOVI_keeps_nine_bits header64k ∅ 65536 1
           "MOVI" "R2" "0x3FF" [] 0 2 1023 (mkGPRCPU reset ∅)).
  - reflexivity.
  - vm_compute. reflexivity.
  - vm_compute. reflexivity.
  - lia.
  - reflexivity.
Defined.

Lemma assembled_NOT_complements_destination_witness :
  let c := mkGPRCPU (mkCPUState [0; 240; 7; 0; 0; 0; 0; 0] 0 0 false) ∅ in
  pass2_command ∅ 65536 1 ["NOT"; "R1"; "R2"] 0
    = Go (mkEmit (u16 (0 + 1)) [(0, encRR 10 1 1)]) /\
  getR (state (execute header64k (encRR 10 1 1) c)) 1 = 65535 - 240.
Proof.
  apply (assembled_NOT_complements_destination header64k ∅ 65536 1
           "NOT" "R1" ["R2"] 0 1
           (mkGPRCPU (mkCPUState [0; 240; 7; 0; 0; 0; 0; 0] 0 0 false) ∅)).
  - reflexivity.
  - vm_compute. reflexivity.
  - lia.
  - reflexivity.
  - unfold is_u16. vm_compute. split; [discriminate|reflexivity].
Defined.

(* ===================================================================== *)
(** ** The label table *)
(* ===================================================================== *)

Lemma toUpperChar_idem (c : ascii) : toUpperChar (toUpperChar c) = toUpperChar c.
Proof. destruct c as [[] [] [] [] [] [] [] []]; vm_compute; reflexivity. Qed.

Lemma toUpper_idem (s : string) : toUpper (toUpper s) = toUpper s.
Proof.
  induction s as [|c s IH]; [reflexivity|].
  cbn [toUpper]. rewrite toUpperChar_idem, IH. reflexivity.
Qed.

Lemma pass1_command_u16 (n : nat) (tok : list string) (pc pc' : Z) :
  is_u16 pc -> pass1_command n tok pc = Go pc' -> is_u16 pc'.
Proof.
  intros Hpc. unfold pass1_command.
  destruct (String.eqb _ ".ORG").
  - destruct tok as [|t0 [|t1 more]]; try discriminate.
    destruct (parseNumber t1) eqn:E; [|discriminate].
    intros [= <-]. exact (parseNumber_u16 _ _ E).
  - destruct (String.eqb _ ".WORD").
    + destruct tok as [|t0 [|t1 [|t2 more]]]; try discriminate;
        intros [= <-]; first [exact Hpc | apply is_u16_u16].
    + destruct (0 <=? _); [|discriminate]. intros [= <-]. apply is_u16_u16.
Qed.

(** What the first loop maintains: a 16-bit counter, and a table whose
    keys are in upper case and whose values are 16-bit addresses. *)
Lemma pass1_keeps_table (lines : list string) (n : nat) (pc pc' : Z)
    (lbls lbls' : gmap string Z) :
  is_u16 pc ->
  (forall k v, lbls !! k = Some v -> toUpper k = k /\ is_u16 v) ->
  pass1 lines n (pc, lbls) = Go (pc', lbls') ->
  is_u16 pc' /\
  (forall k v, lbls' !! k = Some v -> toUpper k = k /\ is_u16 v).
Proof.
  revert n pc lbls. induction lines as [|line lines IH]; intros n pc lbls Hpc Hl;
    cbn [pass1].
  - intros [= <- <-]. split; assumption.
  - unfold pass1_line. destruct (readLine line) as [|name|tok].
    + apply IH; assumption.
    + destruct (empty name); [apply IH; assumption|].
      apply IH; [exact Hpc|]. intros k v. rewrite lookup_insert.
      case_decide as Hk.
      * intros [= <-]. subst k. split; [apply toUpper_idem|exact Hpc].
      * apply Hl.
    + destruct (pass1_command (S n) tok pc) as [pc1| |] eqn:E; try discriminate.
      apply IH; [exact (pass1_command_u16 _ _ _ _ Hpc E)|exact Hl].
Qed.

(** X28. The label table built by the first loop holds only upper-case
    keys and 16-bit addresses.  Since operands are looked up in upper
    case as well, label matching is case-insensitive: two operands that
    differ only in the case of their letters resolve to the same
    address whenever one of them names a label. *)
Theorem label_table_is_uppercase (source : string) (labels : gmap string Z) :
  labelsOf source = Some labels ->
  (forall name a, labels !! name = Some a -> toUpper name = name /\ is_u16 a) /\
  (forall x y a,
     toUpper x = toUpper y -> labels !! toUpper x = Some a ->
     resolve labels x = Some a /\ resolve labels y = Some a).
Proof.
  unfold labelsOf.
  destruct (pass1 (getlines source) 0 (0, ∅)) as [[pc lbls]| |] eqn:E;
    try discriminate.
  intros [= <-]. split.
  - refine (proj2 (pass1_keeps_table _ _ _ _ _ _ _ _ E)).
    + unfold is_u16. lia.
    + intros k v Hk. rewrite lookup_empty in Hk. discriminate Hk.
  - intros x y a Hxy Hx. unfold resolve. rewrite <- Hxy, Hx. split; reflexivity.
Qed.

Lemma label_table_is_uppercase_witness :
  resolve {["DONE" := 2]} "done" = Some 2 /\ resolve {["DONE" := 2]} "Done" = Some 2.
Proof.
  refine (proj2 (label_table_is_uppercase forward_label_program {["DONE" := 2]} _)
            "done" "Done" 2 _ _).
  - vm_compute. reflexivity.
  - reflexivity.
  - reflexivity.
Defined.

Lemma pass1_line_other_label (n : nat) (line key : string) (pc pc' : Z)
    (lbls lbls' : gmap string Z) :
  declares key line = false ->
  pass1_line n line (pc, lbls) = Go (pc', lbls') ->
  lbls' !! key = lbls !! key.
Proof.
  unfold declares, pass1_line. destruct (readLine line) as [|name|tok].
  - intros _ [= _ <-]. reflexivity.
  - destruct (empty name); cbn [negb andb].
    + intros _ [= _ <-]. reflexivity.
    + intros Hne [= _ <-]. apply lookup_insert_ne.
      destruct (String.eqb_spec (toUpper name) key); [discriminate Hne|assumption].
  - intros _. destruct (pass1_command n tok pc); try discriminate.
    intros [= _ <-]. reflexivity.
Qed.

Lemma pass1_other_label (lines : list string) (n : nat) (key : string)
    (st st' : Z * gmap string Z) :
  Forall (fun l => declares key l = false) lines ->
  pass1 lines n st = Go st' ->
  snd st' !! key = snd st !! key.
Proof.
  intros Hno. revert n st.
  induction Hno as [|line lines Hline Hno IH]; intros n st; cbn [pass1].
  - intros [= <-]. reflexivity.
  - destruct st as [pc lbls].
    destruct (pass1_line (S n) line (pc, lbls)) as [[pc1 lbls1]| |] eqn:E;
      try discriminate.
    intros H. rewrite (IH _ _ H). cbn [snd].
    exact (pass1_line_other_label _ _ _ _ _ _ _ Hline E).
Qed.

(** X29. A label resolves to the counter at its last declaration: if
    line [k + 1] declares the label and no later line declares it again
    (in any letter case), then in the table of a completed first loop
    the upper-case name is bound to the value the counter had when the
    first loop read line [k + 1].  Lines before it, redeclarations
    included, do not matter, and neither does the place where the label
    is used. *)
Theorem label_bound_at_last_declaration (source : string)
    (labels lbls : gmap string Z) (k : nat) (line name : string) (pc : Z) :
  let lines := getlines source in
  labelsOf source = Some labels ->
  lines !! k = Some line ->
  readLine line = Label name ->
  name <> EmptyString ->
  pass1 (take k lines) 0 (0, ∅) = Go (pc, lbls) ->
  Forall (fun l => declares (toUpper name) l = false) (drop (S k) lines) ->
  labels !! toUpper name = Some pc.
Proof.
  cbv zeta. intros Hlab Hline Hread Hname Hpre Hlater.
  unfold labelsOf in Hlab.
  rewrite <- (take_drop_middle (getlines source) k line Hline) in Hlab.
  rewrite pass1_app, Hpre in Hlab. cbn [pass1] in Hlab.
  unfold pass1_line in Hlab. rewrite Hread in Hlab.
  destruct name as [|c name]; [contradiction|]. cbn [empty] in Hlab.
  destruct (pass1 (drop (S k) (getlines source)) _ _) as [[pc2 lbls2]| |] eqn:E;
    try discriminate.
  injection Hlab as <-.
  pose proof (pass1_other_label _ _ _ _ _ Hlater E) as Hkeep.
  cbn [snd] in Hkeep. rewrite Hkeep. apply lookup_insert_eq.
Qed.

Lemma label_bound_at_last_declaration_witness :
  ({["DONE" := 2]} : gmap string Z) !! toUpper "DONE" = Some 2.
Proof.
  apply (label_bound_at_last_declaration forward_label_program
           {["DONE" := 2]} ∅ 2 "DONE:" "DONE" 2).
  - vm_compute. reflexivity.
  - vm_compute. reflexivity.
  - vm_compute. reflexivity.
  - discriminate.
  - vm_compute. reflexivity.
  - assert (drop 3 (getlines forward_label_program) = ["HALT"]) as ->
        by (vm_compute; reflexivity).
    repeat (constructor; [vm_compute; reflexivity|]). constructor.
Defined.

(* ===================================================================== *)
(** ** Further instances *)
(* ===================================================================== *)

Lemma shift_semantics_witness :
  let c := mkGPRCPU (mkCPUState [0; 40000; 0; 0; 0; 0; 0; 0] 0 0 false) ∅ in
  let c' := execute header64k (encRR 11 1 1) c in
  getR (state c') 1 = (2 * 40000) mod 65536 /\
  (flagSet (FLAGS (state c')) (FLAG_CARRY header64k) = true <-> 32768 <= 40000).
Proof.
  destruct (shift_semantics header64k
              (mkGPRCPU (mkCPUState [0; 40000; 0; 0; 0; 0; 0; 0] 0 0 false) ∅)
              (encRR 11 1 1) 40000) as [Hshl _].
  - reflexivity.
  - unfold is_u16. lia.
  - reflexivity.
  - destruct (Hshl eq_refl) as (H1 & H2 & _). exact (conj H1 H2).
Defined.

Lemma shift_roundtrip_iff_no_carry_witness :
  let c := mkGPRCPU (mkCPUState [0; 40000; 0; 0; 0; 0; 0; 0] 0 0 false) ∅ in
  let c1 := execute header64k (encRR 11 1 1) c in
  let c2 := execute header64k (encRR 12 1 1) c1 in
  getR (state c2) 1 = 40000
  <-> flagSet (FLAGS (state c1)) (FLAG_CARRY header64k) = false.
Proof.
  apply (shift_roundtrip_iff_no_carry header64k
           (mkGPRCPU (mkCPUState [0; 40000; 0; 0; 0; 0; 0; 0] 0 0 false) ∅)
           (encRR 11 1 1) (encRR 12 1 1) 40000).
  - reflexivity.
  - unfold is_u16. lia.
  - reflexivity.
  - reflexivity.
  - left. split; reflexivity.
Defined.

Lemma label_bound_to_cursor_witness :
  pass1 (take 2 (getlines label_program)) 0 (0, ∅)
    = Go (1, <[toUpper "LOOP" := 1]> ∅) /\
  1 = 1.
Proof.
  apply (label_bound_to_cursor label_program 65536 {["LOOP" := 1]} ∅ 1
           "LOOP:" "LOOP" 1 1).
  - assert (take 1 (getlines label_program) = ["MOVI R0, 5"]) as ->
        by (vm_compute; reflexivity).
    repeat (constructor; [vm_compute; reflexivity|]). constructor.
  - vm_compute. reflexivity.
  - vm_compute. reflexivity.
  - discriminate.
  - vm_compute. reflexivity.
  - vm_compute. reflexivity.
Defined.


Lemma run_counts_steps_witness :
  run header64k 5 0 (mkGPRCPU reset (poke ∅ [(0, encMOVI 0 5); (1, 0)]))
  = Some (0 + Z.of_nat 1,
          steps header64k 2 (mkGPRCPU reset (poke ∅ [(0, encMOVI 0 5); (1, 0)]))).
Proof.
  apply (proj1 (run_counts_steps header64k
                  (mkGPRCPU reset (poke ∅ [(0, encMOVI 0 5); (1, 0)])))
           1%nat 5%nat 0).
  - intros j Hj. destruct j as [|[|j]]; [reflexivity|reflexivity|lia].
  - vm_compute. reflexivity.
  - lia.
Defined.
